(** * trello-sprint: sprint report and PM score synchronisation

    A shallow embedding of [trello_sprint/main.py] and the verification of
    its classification, aggregation and synchronisation logic.

    Conventions of the embedding.
    - A Python [str] is the [string] of its UTF-8 encoding: the characters
      below 128 are the ASCII characters, and a text is pure ASCII when all
      its characters are. Equality, concatenation and formatting of [str]
      are those of the encodings. On pure ASCII text [str.upper] and
      [str.lower] fold the letters a-z / A-Z; beyond ASCII they follow the
      Unicode tables of the interpreter, which are parameters, as is the
      reading of a [str] by [int].
    - Python [int] is [Z]; Python [float] is an IEEE 754 binary64 value,
      represented by [spec_float] with the operations of [SpecFloat] at
      precision 53 and maximal exponent 1024.
    - Module globals ([_INCLUDE_MEMBERS], [MEMBERS_CACHE]) and every
      observable effect (remote calls, prints, field writes) live in an
      explicit [State]; exceptions are results, and a raised exception
      keeps the state reached so far.
    - The board and its library, the issue tracker, the URL parser of the
      standard library and the Unicode tables of the interpreter are
      collaborators: their answers are the fields of [World]. *)

From Stdlib Require Import ZArith String Ascii List Bool Lia.
From Stdlib Require Import Floats.SpecFloat.
From stdpp Require Import gmap strings list.

Local Open Scope string_scope.
Local Open Scope list_scope.

(* ===================================================================== *)
(** ** Strings: case conversion *)
(* ===================================================================== *)

Definition is_ascii_lower (c : ascii) : bool :=
  let n := N_of_ascii c in (97 <=? n)%N && (n <=? 122)%N.

Definition is_ascii_upper (c : ascii) : bool :=
  let n := N_of_ascii c in (65 <=? n)%N && (n <=? 90)%N.

Definition ascii_upper (c : ascii) : ascii :=
  if is_ascii_lower c then ascii_of_N (N_of_ascii c - 32) else c.

Definition ascii_lower (c : ascii) : ascii :=
  if is_ascii_upper c then ascii_of_N (N_of_ascii c + 32) else c.

(** The fold of the letters a-z to A-Z, every other character being kept:
    [s.upper()] for a pure ASCII [s]. *)
Fixpoint upper (s : string) : string :=
  match s with
  | EmptyString => EmptyString
  | String c s' => String (ascii_upper c) (upper s')
  end.

(** The fold of the letters A-Z to a-z, every other character being kept:
    [s.lower()] for a pure ASCII [s]. *)
Fixpoint lower (s : string) : string :=
  match s with
  | EmptyString => EmptyString
  | String c s' => String (ascii_lower c) (lower s')
  end.

(** [s.isascii()] *)
Fixpoint isascii (s : string) : bool :=
  match s with
  | EmptyString => true
  | String c s' => (N_of_ascii c <? 128)%N && isascii s'
  end.

(** [sep.join(l)] *)
Fixpoint join (sep : string) (l : list string) : string :=
  match l with
  | [] => ""
  | [x] => x
  | x :: l' => x +:+ sep +:+ join sep l'
  end.

(* ===================================================================== *)
(** ** Python numbers *)
(* ===================================================================== *)

Definition prec : Z := 53.
Definition emax : Z := 1024.

Inductive PyVal :=
| PyInt (n : Z)
| PyFloat (f : spec_float)
| PyStr (s : string).

Inductive Exn :=
| ListNotFound (name : string)
| KeyError (key : string)
| ValueError
| OverflowError
| SystemExit (code : Z).

Inductive Result (A : Type) :=
| Ok (a : A)
| Raise (e : Exn).
Arguments Ok {A} a.
Arguments Raise {A} e.

(** [float(n)] for an [int] [n]: the nearest binary64 value, ties to even;
    [OverflowError] when that value is not finite. *)
Definition py_float (n : Z) : Result spec_float :=
  match binary_normalize prec emax n 0 false with
  | S754_infinity _ => Raise OverflowError
  | f => Ok f
  end.

(** The [int] literal [100] as the left operand of a [float] product. *)
Definition float_100 : spec_float :=
  Eval vm_compute in binary_normalize prec emax 100 0 false.

(** [x / y] on floats: [ZeroDivisionError] is signalled by [None]. *)
Definition py_float_div (x y : spec_float) : option spec_float :=
  match y with
  | S754_zero _ => None
  | _ => Some (SFdiv prec emax x y)
  end.

(** [percentage(part, whole)]
<<
    try:
        return 100 * float(part)/float(whole)
    except ZeroDivisionError:
        return 100
>> *)
Definition percentage (part whole : Z) : Result PyVal :=
  match py_float part with
  | Raise e => Raise e
  | Ok fp =>
      let num := SFmul prec emax float_100 fp in
      match py_float whole with
      | Raise e => Raise e
      | Ok fw =>
          match py_float_div num fw with
          | Some q => Ok (PyFloat q)
          | None => Ok (PyInt 100)
          end
      end
  end.

(** [f == n] for a float and an int: Python compares the two values
    exactly, without rounding [n]. *)
Definition float_eq_int (f : spec_float) (n : Z) : bool :=
  match f with
  | S754_zero _ => (n =? 0)%Z
  | S754_finite s m e =>
      if (0 <=? e)%Z then (cond_Zopp s (Z.pos m * 2 ^ e) =? n)%Z
      else ((Z.pos m mod 2 ^ (- e) =? 0) && (cond_Zopp s (Z.pos m / 2 ^ (- e)) =? n))%Z
  | _ => false
  end.

(** [v == n] for a number [v] returned by the program and an int [n]. *)
Definition py_eq_int (v : PyVal) (n : Z) : bool :=
  match v with
  | PyInt m => (m =? n)%Z
  | PyFloat f => float_eq_int f n
  | PyStr _ => false
  end.


(* ===================================================================== *)
(** ** The board: labels, custom fields, cards, lists, boards *)
(* ===================================================================== *)

Module Label.
Record t := mk { name : string }.
End Label.

Module CustomField.
Record t := mk { name : string; value : string }.
End CustomField.

(** A card as the Board Gateway hands it over. [labels] may be [None]
    (the source guards with [card.labels or []]); [member_id] is the list
    of ids of the assigned members. *)
Module Card.
Record t := mk {
  id : string;
  name : string;
  labels : option (list Label.t);
  custom_fields : list CustomField.t;
  member_id : list string
}.
End Card.

(** A list of the board; [list_cards] is what [tlist.list_cards()]
    returns, in the gateway's order. *)
Module WorkList.
Record t := mk { name : string; list_cards : list Card.t }.
End WorkList.

(** A board; [list_lists] is what [board.list_lists('open')] returns. *)
Module Board.
Record t := mk { name : string; list_lists : list WorkList.t }.
End Board.

(** The dict built for each card by [parse_cards_from_list]. The key
    ['bugzilla'] is optional: [None] stands for an absent key, which is
    what [card.get('bugzilla')] reads. *)
Module WorkUnit.
Record t := mk {
  _object : Card.t;
  members : list string;
  unplanned : bool;
  bugzilla : option string;
  name : string
}.
End WorkUnit.

(** The dict [{'planned': [...], 'unplanned': [...]}]. *)
Module Cards.
Record t := mk { planned : list WorkUnit.t; unplanned : list WorkUnit.t }.
End Cards.

Definition LABEL_UNPLANNED : string := "UNPLANNED".
Definition FIELD_BUGZILLA : string := "BUGZILLA".
Definition FIELD_PM_SCORE : string := "PM_SCORE".

(* ===================================================================== *)
(** ** Effects *)
(* ===================================================================== *)

(** One argument of a [print] call: a value, or a [%]-format expression
    kept with its template and operands. *)
Inductive Printed :=
| Arg (v : PyVal)
| Fmt (template : string) (args : list PyVal).

(** What the program does to the outside, in the order it happens. *)
Inductive Event :=
| MemberFetch (mid : string)
| Print (args : list Printed)
| InteractiveLogin
| GetBug (bug_id : string)
| SetCustomField (card : Card.t) (field : string) (v : Z).

Record State := mkState {
  _INCLUDE_MEMBERS : bool;
  MEMBERS_CACHE : gmap string string;
  trace : list Event
}.

(** The collaborators.
    - [list_boards]: [CLIENT.list_boards('open')].
    - [full_name]: the [full_name] of [Member(CLIENT, mid)] after
      [fetch()]; the answer may depend on what happened before.
    - [logged_in]: [bzapi.logged_in].
    - [query_id]: [parse_qs(urlparse(url).query)['id'][0]], [None] when
      the query string has no [id] parameter (a [KeyError]).
    - [cf_pm_score]: the attribute [cf_pm_score] of [bzapi.getbug(id)].
    - [custom_field_by_name]: the outcome of the call
      [card.get_custom_field_by_name(name)] of the board library, which
      returns a field object ([Ok tt]) or raises: a [ValueError] when
      neither the card nor its board knows a custom field of that name.
    - [unicode_lower], [unicode_upper]: [str.lower] and [str.upper] on text
      that is not pure ASCII.
    - [int_of_str]: [int(s)] for a [str] [s]; [None] is a [ValueError].
      What counts as whitespace and as a digit, and how long a numeral may
      be, is the interpreter's business. *)
Record World := mkWorld {
  list_boards : list Board.t;
  full_name : list Event -> string -> string;
  logged_in : bool;
  query_id : string -> option string;
  cf_pm_score : string -> PyVal;
  custom_field_by_name : Card.t -> string -> Result unit;
  unicode_lower : string -> string;
  unicode_upper : string -> string;
  int_of_str : string -> option Z
}.

Definition M (A : Type) : Type := State -> State * Result A.

#[global] Instance M_ret : MRet M := fun A a st => (st, Ok a).

#[global] Instance M_bind : MBind M := fun A B k m st =>
  match m st with
  | (st', Ok a) => k a st'
  | (st', Raise e) => (st', Raise e)
  end.

Definition raise {A} (e : Exn) : M A := fun st => (st, Raise e).

Definition lift {A} (r : Result A) : M A := fun st => (st, r).

Definition emit (e : Event) : M unit :=
  fun st => (mkState (_INCLUDE_MEMBERS st) (MEMBERS_CACHE st) (trace st ++ [e]), Ok tt).

Definition print (args : list Printed) : M unit := emit (Print args).

(** [for x in l: body(x)] *)
Fixpoint for_each {A} (l : list A) (body : A -> M unit) : M unit :=
  match l with
  | [] => mret tt
  | x :: l' => body x;; for_each l' body
  end.

Definition get_state : M State := fun st => (st, Ok st).

(** [_report_defaults(args)]: [_INCLUDE_MEMBERS = args.include_members] *)
Definition _report_defaults (include_members : bool) : M unit :=
  fun st => (mkState include_members (MEMBERS_CACHE st) (trace st), Ok tt).

Definition TAB : string := String "009"%char "".
Definition DQUOTE : string := String "034"%char "".

(* ===================================================================== *)
(** ** The program *)
(* ===================================================================== *)

Section Program.
Context (W : World).

(** [get_board(name)]: the loop over [CLIENT.list_boards('open')]; falling
    off the end of the function returns [None]. *)
Fixpoint get_board_loop (boards : list Board.t) (name : string) : option Board.t :=
  match boards with
  | [] => None
  | b :: boards' =>
      if String.eqb (Board.name b) name then Some b
      else get_board_loop boards' name
  end.

Definition get_board (name : string) : option Board.t :=
  get_board_loop (list_boards W) name.

(** [s.lower()]. The ASCII letters are folded by [lower]; text that is not
    pure ASCII is then lowered by the Unicode tables. The tables lower A-Z
    to a-z as well, and treat a-z and A-Z alike where the lowering of a
    character depends on its neighbours, so folding first changes
    nothing. *)
Definition str_lower (s : string) : string :=
  let s' := lower s in
  if isascii s' then s' else unicode_lower W s'.

(** [s.upper()], in the same way. *)
Definition str_upper (s : string) : string :=
  let s' := upper s in
  if isascii s' then s' else unicode_upper W s'.

(** [int(v)]: identity on an [int]; truncation towards zero of a finite
    [float], [OverflowError] for an infinity and [ValueError] for a NaN;
    the reading of a [str], or [ValueError]. *)
Definition py_int (v : PyVal) : Result Z :=
  match v with
  | PyInt n => Ok n
  | PyFloat (S754_zero _) => Ok 0%Z
  | PyFloat (S754_finite s m e) =>
      Ok (cond_Zopp s (if (0 <=? e)%Z then Z.pos m * 2 ^ e else Z.pos m / 2 ^ (- e)))%Z
  | PyFloat (S754_infinity _) => Raise OverflowError
  | PyFloat S754_nan => Raise ValueError
  | PyStr s =>
      match int_of_str W s with
      | Some n => Ok n
      | None => Raise ValueError
      end
  end.

(** [get_list(lists, name)]: [name] is lowered once, every list name is
    lowered for the comparison; the [else] of the loop raises
    [ListNotFound('List named "%s" was not found' % name)]. *)
Fixpoint get_list_loop (lists : list WorkList.t) (name : string) : Result WorkList.t :=
  match lists with
  | [] => Raise (ListNotFound name)
  | l :: lists' =>
      if String.eqb (str_lower (WorkList.name l)) name then Ok l
      else get_list_loop lists' name
  end.

Definition get_list (lists : list WorkList.t) (name : string) : Result WorkList.t :=
  let name := str_lower name in
  get_list_loop lists name.

(** [member = Member(CLIENT, mid); member.fetch();
     MEMBERS_CACHE[mid] = member.full_name] *)
Definition fetch_member (mid : string) : M unit :=
  fun st =>
    let nm := full_name W (trace st) mid in
    (mkState (_INCLUDE_MEMBERS st) (<[mid := nm]> (MEMBERS_CACHE st))
             (trace st ++ [MemberFetch mid]), Ok tt).

(** The loop [for mid in card.member_id] of [list_members_from_card]. *)
Fixpoint members_loop (mids : list string) (members : list string) : M (list string) :=
  match mids with
  | [] => mret members
  | mid :: mids' =>
      st ← get_state;
      (if decide (MEMBERS_CACHE st !! mid = None) then fetch_member mid else mret tt);;
      st' ← get_state;
      match MEMBERS_CACHE st' !! mid with
      | Some nm => members_loop mids' (members ++ [nm])
      | None => raise (KeyError mid)
      end
  end.

Definition list_members_from_card (card : Card.t) : M (list string) :=
  st ← get_state;
  if negb (_INCLUDE_MEMBERS st) || bool_decide (Card.member_id card = [])
  then mret []
  else members_loop (Card.member_id card) [].

(** [is_card_unplanned(card)]: the loop over [card.labels or []]. The test
    [l.name.upper() == LABEL_UNPLANNED] is decided by the fold of the ASCII
    letters alone: the characters beyond ASCII whose upper-case form is
    made of ASCII letters are U+00DF (SS), U+0131 (I), U+017F (S) and the
    ligatures U+FB00 to U+FB06 (FF, FI, FL, FFI, FFL, ST), and each of
    these forms has a letter that UNPLANNED does not have. *)
Fixpoint labels_loop (labels : list Label.t) : bool :=
  match labels with
  | [] => false
  | l :: labels' =>
      if String.eqb (upper (Label.name l)) LABEL_UNPLANNED then true
      else labels_loop labels'
  end.

Definition is_card_unplanned (card : Card.t) : bool :=
  labels_loop (default [] (Card.labels card)).

(** The loop [for cf in c.custom_fields] of [parse_cards_from_list];
    [bz] is the current content of [card['bugzilla']]. Here the Unicode
    tables matter: U+0131 upper-cases to the I of BUGZILLA. *)
Fixpoint custom_fields_loop (cfs : list CustomField.t) (bz : option string) : option string :=
  match cfs with
  | [] => bz
  | cf :: cfs' =>
      custom_fields_loop cfs'
        (if String.eqb (str_upper (CustomField.name cf)) FIELD_BUGZILLA
         then Some (CustomField.value cf) else bz)
  end.

(** [cards[key].append(card)] *)
Definition append_card (cards : Cards.t) (card : WorkUnit.t) : Cards.t :=
  if WorkUnit.unplanned card
  then Cards.mk (Cards.planned cards) (Cards.unplanned cards ++ [card])
  else Cards.mk (Cards.planned cards ++ [card]) (Cards.unplanned cards).

(** The loop [for c in tlist.list_cards()] of [parse_cards_from_list]. *)
Fixpoint cards_loop (cs : list Card.t) (cards : Cards.t) : M Cards.t :=
  match cs with
  | [] => mret cards
  | c :: cs' =>
      members ← list_members_from_card c;
      let card :=
        WorkUnit.mk c members (is_card_unplanned c)
                    (custom_fields_loop (Card.custom_fields c) None)
                    (Card.name c) in
      cards_loop cs' (append_card cards card)
  end.

Definition parse_cards_from_list (lists : list WorkList.t) (list_name : string) : M Cards.t :=
  let cards := Cards.mk [] [] in
  tlist ← lift (get_list lists list_name);
  cards_loop (WorkList.list_cards tlist) cards.

(** [print_card(card, print_unplanned)] *)
Definition print_card (print_unplanned : bool) (card : WorkUnit.t) : M unit :=
  print [Arg (PyStr (TAB +:+ "*")); Arg (PyStr (WorkUnit.name card));
         Arg (PyStr (if print_unplanned && WorkUnit.unplanned card
                     then "[unplanned]" else ""))];;
  st ← get_state;
  if _INCLUDE_MEMBERS st
  then print [Arg (PyStr (TAB +:+ TAB +:+ "["));
              Arg (PyStr (join ", " (WorkUnit.members card)));
              Arg (PyStr "]")]
  else mret tt.

Definition len {A} (l : list A) : Z := Z.of_nat (length l).

(** [print_report(lists)] *)
Definition print_report (lists : list WorkList.t) : M unit :=
  sprint_backlog_cards ← parse_cards_from_list lists "Sprint Backlog";
  doing_cards ← parse_cards_from_list lists "Doing";
  in_review_cards ← parse_cards_from_list lists "In Review";
  done_cards ← parse_cards_from_list lists "Done";
  let units_planned_done := len (Cards.planned done_cards) in
  let units_unplanned_done := len (Cards.unplanned done_cards) in
  let units_planned :=
    (len (Cards.planned sprint_backlog_cards) +
     len (Cards.planned doing_cards) +
     len (Cards.planned in_review_cards) +
     units_planned_done)%Z in
  let units_unplanned :=
    (len (Cards.unplanned sprint_backlog_cards) +
     len (Cards.unplanned doing_cards) +
     len (Cards.unplanned in_review_cards) +
     units_unplanned_done)%Z in
  print [Arg (PyStr "Units of work planned:"); Arg (PyInt units_planned)];;
  print [Arg (PyStr "Units of work unplanned:"); Arg (PyInt units_unplanned)];;
  pct_planned ← lift (percentage units_planned_done units_planned);
  print [Fmt "Units of planned work achieved: %d (%.1f%%)"
             [PyInt units_planned_done; pct_planned]];;
  pct_unplanned ← lift (percentage units_unplanned_done units_unplanned);
  print [Fmt "Units of unplanned work achieved: %d (%.1f%%)"
             [PyInt units_unplanned_done; pct_unplanned]];;
  print [Arg (PyStr "Achievement Headline: ")];;
  for_each (Cards.planned done_cards) (print_card false);;
  print [Arg (PyStr "Unplanned Headline: ")];;
  for_each (Cards.unplanned done_cards) (print_card false);;
  print [Arg (PyStr "Unfinished cards: ")];;
  for_each (Cards.planned sprint_backlog_cards ++
            Cards.unplanned sprint_backlog_cards ++
            Cards.planned doing_cards ++
            Cards.unplanned doing_cards ++
            Cards.planned in_review_cards ++
            Cards.unplanned in_review_cards) (print_card true).

(** The body of the loop of [set_pm_score]. The field object is looked up
    before the right-hand side of the assignment [cf.value = int(...)] is
    evaluated, and the assignment itself is the write. *)
Definition set_pm_score_body (card : WorkUnit.t) : M unit :=
  match WorkUnit.bugzilla card with
  | None => mret tt
  | Some bz_url =>
      match query_id W bz_url with
      | None => raise (KeyError "id")
      | Some bug_id =>
          emit (GetBug bug_id);;
          let score := cf_pm_score W bug_id in
          print [Fmt ("Setting PM_SCORE for " +:+ DQUOTE +:+ "%s" +:+ DQUOTE +:+ " to %s")
                     [PyStr (WorkUnit.name card); score]];;
          lift (custom_field_by_name W (WorkUnit._object card) FIELD_PM_SCORE);;
          n ← lift (py_int score);
          emit (SetCustomField (WorkUnit._object card) FIELD_PM_SCORE n)
      end
  end.

(** [set_pm_score(lists)] *)
Definition set_pm_score (lists : list WorkList.t) : M unit :=
  backlog_cards ← parse_cards_from_list lists "Backlog";
  (if logged_in W then mret tt else emit InteractiveLogin);;
  for_each (Cards.planned backlog_cards ++ Cards.unplanned backlog_cards)
           set_pm_score_body.

(** [main()] from the point where the command line has been parsed
    ([cli_options.board], [cli_options.command]) and the client built. *)
Definition main (board : string) (command : option string) : M unit :=
  match command with
  | None =>
      print [Arg (PyStr "Please select a command. --help for more information")];;
      raise (SystemExit 1)
  | Some cmd =>
      match get_board board with
      | None => print [Fmt "Board %s not found" [PyStr board]]
      | Some b =>
          let lists := Board.list_lists b in
          if String.eqb cmd "report" then print_report lists
          else if String.eqb cmd "pm-score" then set_pm_score lists
          else
            print [Fmt ("Command " +:+ DQUOTE +:+ "%s" +:+ DQUOTE +:+ " is not a valid command")
                       [PyStr cmd]];;
            raise (SystemExit 1)
      end
  end.
End Program.

(** The state of a fresh process: nothing cached, nothing done yet. *)
Definition initial_state (include_members : bool) : State :=
  mkState include_members ∅ [].

(* ===================================================================== *)
(** ** Vocabulary of the specification *)
(* ===================================================================== *)

(** Two characters are the same up to ASCII case: equal, or an upper-case
    letter A-Z and the lower-case letter 32 code points above it. *)
Definition same_letter (a b : ascii) : bool :=
  Ascii.eqb a b
  || (is_ascii_upper a && (N_of_ascii a + 32 =? N_of_ascii b)%N)
  || (is_ascii_upper b && (N_of_ascii b + 32 =? N_of_ascii a)%N).

(** Equality of whole strings ignoring the case of the letters a-z and
    A-Z. *)
Fixpoint eq_ignore_case (s t : string) : bool :=
  match s, t with
  | EmptyString, EmptyString => true
  | String a s', String b t' => same_letter a b && eq_ignore_case s' t'
  | _, _ => false
  end.

(** Equality of whole strings ignoring case, for text of any script: the
    two have the same lower-case form. For pure ASCII text this is
    [eq_ignore_case]. *)
Definition equal_ignoring_case (W : World) (s t : string) : Prop :=
  str_lower W s = str_lower W t.

#[global] Instance equal_ignoring_case_dec W s t : Decision (equal_ignoring_case W s t).
Proof. unfold equal_ignoring_case. apply _. Defined.

Definition all_ascii : list ascii := map ascii_of_nat (seq 0 256).

(** The member ids looked up remotely, in the order of the lookups. *)
Fixpoint fetched (tr : list Event) : list string :=
  match tr with
  | [] => []
  | MemberFetch mid :: tr' => mid :: fetched tr'
  | _ :: tr' => fetched tr'
  end.

(** The arguments of the [print] calls, in order. *)
Fixpoint printed (tr : list Event) : list (list Printed) :=
  match tr with
  | [] => []
  | Print args :: tr' => args :: printed tr'
  | _ :: tr' => printed tr'
  end.

(** The calls to the issue tracker and the custom-field writes. *)
Fixpoint tracker_calls (tr : list Event) : list Event :=
  match tr with
  | [] => []
  | GetBug b :: tr' => GetBug b :: tracker_calls tr'
  | SetCustomField c f v :: tr' => SetCustomField c f v :: tracker_calls tr'
  | _ :: tr' => tracker_calls tr'
  end.

(** The ids of [mids] that are not in [seen], each once, in the order of
    their first occurrence. *)
Fixpoint new_ids (seen : gset string) (mids : list string) : list string :=
  match mids with
  | [] => []
  | mid :: mids' =>
      if decide (mid ∈ seen) then new_ids seen mids'
      else mid :: new_ids ({[mid]} ∪ seen) mids'
  end.

(** The run invariant of the member cache: the cache holds exactly the ids
    that were looked up, and none was looked up twice. *)
Definition cache_inv (st : State) : Prop :=
  NoDup (fetched (trace st)) ∧
  ∀ mid, mid ∈ fetched (trace st) ↔ is_Some (MEMBERS_CACHE st !! mid).

(** How often [mid] was looked up remotely. *)
Definition lookups (mid : string) (tr : list Event) : nat :=
  length (filter (λ m, m = mid) (fetched tr)).

Definition planned_cards (l : WorkList.t) : list Card.t :=
  filter (λ c, is_card_unplanned c = false) (WorkList.list_cards l).

Definition unplanned_cards (l : WorkList.t) : list Card.t :=
  filter (λ c, is_card_unplanned c = true) (WorkList.list_cards l).

(** A custom field named BUGZILLA ignoring case: the upper-case form of
    its name is BUGZILLA. For a pure ASCII name this is [eq_ignore_case]
    with BUGZILLA. *)
Definition is_bugzilla_field (W : World) (cf : CustomField.t) : Prop :=
  str_upper W (CustomField.name cf) = FIELD_BUGZILLA.

#[global] Instance is_bugzilla_field_dec W cf : Decision (is_bugzilla_field W cf).
Proof. unfold is_bugzilla_field. apply _. Defined.


(** [u] is the dict that [parse_cards_from_list] builds for the card [c],
    its member names apart. *)
Definition unit_of (W : World) (c : Card.t) (u : WorkUnit.t) : Prop :=
  WorkUnit._object u = c ∧
  WorkUnit.unplanned u = is_card_unplanned c ∧
  WorkUnit.bugzilla u = custom_fields_loop W (Card.custom_fields c) None ∧
  WorkUnit.name u = Card.name c.

(** The member names of [u] are those the cache [cache] holds for the
    member ids of its card, in the order of the ids, when members are
    included; there are none otherwise. *)
Definition members_of (include : bool) (cache : gmap string string) (u : WorkUnit.t) : Prop :=
  if include
  then Forall2 (λ mid nm, cache !! mid = Some nm)
               (Card.member_id (WorkUnit._object u)) (WorkUnit.members u)
  else WorkUnit.members u = [].

Definition planned_units (units : list WorkUnit.t) : list WorkUnit.t :=
  filter (λ u, WorkUnit.unplanned u = false) units.

Definition unplanned_units (units : list WorkUnit.t) : list WorkUnit.t :=
  filter (λ u, WorkUnit.unplanned u = true) units.

(** The state [st] after the events [evs]. *)
Definition after (st : State) (evs : list Event) : State :=
  mkState (_INCLUDE_MEMBERS st) (MEMBERS_CACHE st) (trace st ++ evs).

(** The lines [print_card] prints for one unit. *)
Definition card_lines (include print_unplanned : bool) (card : WorkUnit.t) : list (list Printed) :=
  [Arg (PyStr (TAB +:+ "*")); Arg (PyStr (WorkUnit.name card));
   Arg (PyStr (if print_unplanned && WorkUnit.unplanned card then "[unplanned]" else ""))]
  :: (if include
      then [[Arg (PyStr (TAB +:+ TAB +:+ "[")); Arg (PyStr (join ", " (WorkUnit.members card)));
             Arg (PyStr "]")]]
      else []).

(** The four summary lines of the report, for given aggregates. *)
Definition summary_lines (units_planned units_unplanned
                          units_planned_done units_unplanned_done : Z)
                         (percent_planned percent_unplanned : PyVal) : list (list Printed) :=
  [ [Arg (PyStr "Units of work planned:"); Arg (PyInt units_planned)];
    [Arg (PyStr "Units of work unplanned:"); Arg (PyInt units_unplanned)];
    [Fmt "Units of planned work achieved: %d (%.1f%%)"
         [PyInt units_planned_done; percent_planned]];
    [Fmt "Units of unplanned work achieved: %d (%.1f%%)"
         [PyInt units_unplanned_done; percent_unplanned]] ].

(** The three listings of the report: the planned and the unplanned units
    of "Done", then the unfinished units [unfinished]. *)
Definition listing_lines (include : bool) (done_planned done_unplanned unfinished : list WorkUnit.t)
  : list (list Printed) :=
  [[Arg (PyStr "Achievement Headline: ")]] ++
  concat (card_lines include false <$> done_planned) ++
  [[Arg (PyStr "Unplanned Headline: ")]] ++
  concat (card_lines include false <$> done_unplanned) ++
  [[Arg (PyStr "Unfinished cards: ")]] ++
  concat (card_lines include true <$> unfinished).

(** The line [set_pm_score] prints for a card and the score read from the
    issue tracker. *)
Definition score_line (card : WorkUnit.t) (score : PyVal) : list Printed :=
  [Fmt ("Setting PM_SCORE for " +:+ DQUOTE +:+ "%s" +:+ DQUOTE +:+ " to %s")
       [PyStr (WorkUnit.name card); score]].

(** The events of one complete synchronisation of [card] against the issue
    [bug_id] whose score converts to [n]. *)
Definition sync_events (W : World) (card : WorkUnit.t) (bug_id : string) (n : Z) : list Event :=
  [GetBug bug_id;
   Print (score_line card (cf_pm_score W bug_id));
   SetCustomField (WorkUnit._object card) FIELD_PM_SCORE n].

(** The binary64 value that holds the integer [n] exactly, for
    [0 < n < 2^53]: a mantissa of exactly 53 bits. *)
Definition exact_float (n : Z) : spec_float :=
  S754_finite false (Z.to_pos (n * 2 ^ (53 - Zdigits2 n))) (Zdigits2 n - 53)%Z.

(* ===================================================================== *)
(** ** A small board, used to run the program on concrete data *)
(* ===================================================================== *)

Module Sample.
Definition url_12345 : string := "https://bugzilla.redhat.com/show_bug.cgi?id=12345".
Definition url_no_id : string := "https://bugzilla.redhat.com/show_bug.cgi?bug=7".

Definition fix_login : Card.t :=
  Card.mk "c1" "Fix login" (Some [Label.mk "Unplanned"])
          [CustomField.mk "bugzilla" url_12345] ["m1"; "m2"].

Definition write_docs : Card.t :=
  Card.mk "c2" "Write docs" None [] ["m1"].

Definition refactor : Card.t :=
  Card.mk "c3" "Refactor" (Some [Label.mk "urgent"; Label.mk "UNPLANNED"])
          [CustomField.mk "Bugzilla" url_12345; CustomField.mk "PM_SCORE" "3";
           CustomField.mk "BUGZILLA" url_no_id] [].

Definition sprint_backlog : WorkList.t := WorkList.mk "Sprint Backlog" [fix_login].
Definition doing : WorkList.t := WorkList.mk "doing" [write_docs].
Definition in_review : WorkList.t := WorkList.mk "In Review" [].
Definition done : WorkList.t := WorkList.mk "DONE" [refactor; write_docs].
Definition backlog : WorkList.t := WorkList.mk "Backlog" [write_docs; fix_login; refactor].

Definition lists : list WorkList.t := [sprint_backlog; doing; in_review; done; backlog].

Definition board : Board.t := Board.mk "Team" lists.

(** Two lists with one name in two cases, and a card with two reference
    fields, the second spelt with U+0131. *)
Definition cafe_upper : WorkList.t := WorkList.mk "CAFÉ" [write_docs].
Definition dotless : Card.t :=
  Card.mk "c5" "Dotless" None
          [CustomField.mk "BUGZILLA" url_no_id; CustomField.mk "bugzılla" url_12345] [].

Definition cafe_lower : WorkList.t := WorkList.mk "café" [dotless].

(** The only reference with an [id] parameter is [url_12345]. *)
Definition query_id (url : string) : option string :=
  if String.eqb url url_12345 then Some "12345" else None.

(** The part of the Unicode tables that the sample boards need: U+00C9
    (the characters 195 and 137 of the encoding) lowers to U+00E9 (195 and
    169), and U+0131 (196 and 177) upper-cases to I. *)
Fixpoint unicode_lower (s : string) : string :=
  match s with
  | String "195" (String "137" s') => String "195" (String "169" (unicode_lower s'))
  | String c s' => String c (unicode_lower s')
  | EmptyString => EmptyString
  end.

Fixpoint unicode_upper (s : string) : string :=
  match s with
  | String "196" (String "177" s') => String "I" (unicode_upper s')
  | String c s' => String c (unicode_upper s')
  | EmptyString => EmptyString
  end.

(** [int] on the scores of the sample trackers: a plain decimal numeral is
    read, anything else is rejected. *)
Definition digit_of (c : ascii) : option Z :=
  let n := N_of_ascii c in
  if (48 <=? n)%N && (n <=? 57)%N then Some (Z.of_N n - 48)%Z else None.

Fixpoint read_digits (acc : Z) (s : string) : option Z :=
  match s with
  | EmptyString => Some acc
  | String c s' =>
      match digit_of c with
      | Some d => read_digits (10 * acc + d)%Z s'
      | None => None
      end
  end.

Definition int_of_str (s : string) : option Z :=
  match s with
  | EmptyString => None
  | _ => read_digits 0 s
  end.

Definition world : World :=
  mkWorld [board] (λ _ mid, "Name of " +:+ mid) true query_id (λ _, PyStr "1200")
          (λ _ _, Ok tt) unicode_lower unicode_upper int_of_str.

(** The units of the cards, as [parse_cards_from_list] builds them when
    members are not included. *)
Definition unit_fix_login : WorkUnit.t :=
  WorkUnit.mk fix_login [] true (Some url_12345) "Fix login".
Definition unit_write_docs : WorkUnit.t :=
  WorkUnit.mk write_docs [] false None "Write docs".
Definition unit_refactor : WorkUnit.t :=
  WorkUnit.mk refactor [] true (Some url_no_id) "Refactor".
End Sample.

(** [percentage(part, whole) == n]: the call returns, and its value equals
    the int [n]. *)
Definition percentage_eq (part whole n : Z) : Prop :=
  ∃ v, percentage part whole = Ok v ∧ py_eq_int v n = true.

(* ===================================================================== *)
(** ** Vocabulary of the further properties *)
(* ===================================================================== *)

Definition is_fetch (e : Event) : Prop :=
  match e with MemberFetch _ => True | _ => False end.

Definition is_print (e : Event) : Prop :=
  match e with Print _ => True | _ => False end.

(** The events of a report: member lookups and prints. *)
Definition is_report_event (e : Event) : Prop := is_fetch e ∨ is_print e.

(** [m] keeps the run in order, and all it does is [P]: whatever the
    outcome, [_INCLUDE_MEMBERS] is unchanged, the cache only grows, the run
    invariant of the cache is kept, nothing is cached or looked up when
    members are excluded, and the trace is extended by events that all
    satisfy [P]. *)
Definition emits {A} (P : Event → Prop) (m : M A) : Prop :=
  ∀ st st' r, m st = (st', r) →
    _INCLUDE_MEMBERS st' = _INCLUDE_MEMBERS st ∧
    MEMBERS_CACHE st ⊆ MEMBERS_CACHE st' ∧
    (cache_inv st → cache_inv st') ∧
    (_INCLUDE_MEMBERS st = false →
     MEMBERS_CACHE st' = MEMBERS_CACHE st ∧ fetched (trace st') = fetched (trace st)) ∧
    ∃ evs, trace st' = trace st ++ evs ∧ Forall P evs.

(** What the synchronisation pass over [units] may do: query the issue
    tracker, print, and write the field PM_SCORE of the card of one of the
    units. *)
Definition is_sync_event (units : list WorkUnit.t) (e : Event) : Prop :=
  match e with
  | GetBug _ | Print _ => True
  | SetCustomField c f _ =>
      f = FIELD_PM_SCORE ∧ ∃ u, u ∈ units ∧ WorkUnit._object u = c
  | MemberFetch _ | InteractiveLogin => False
  end.

(** The events of the loop body of [set_pm_score] on [u] when it returns
    normally; [None] when it raises. *)
Definition unit_events (W : World) (u : WorkUnit.t) : option (list Event) :=
  match WorkUnit.bugzilla u with
  | None => Some []
  | Some url =>
      match query_id W url with
      | None => None
      | Some bug_id =>
          match custom_field_by_name W (WorkUnit._object u) FIELD_PM_SCORE,
                py_int W (cf_pm_score W bug_id) with
          | Ok _, Ok n => Some (sync_events W u bug_id n)
          | _, _ => None
          end
      end
  end.

Definition events_of (W : World) (u : WorkUnit.t) : list Event :=
  default [] (unit_events W u).

(** The events of the optional login of [set_pm_score]. *)
Definition login_events (W : World) : list Event :=
  if logged_in W then [] else [InteractiveLogin].

(** What [set_pm_score] may do on the lists [lists]: look up members, log
    in, query the issue tracker, print, and write the field PM_SCORE of a
    card of the list that [get_list] finds under "Backlog". *)
Definition is_backlog_sync_event (W : World) (lists : list WorkList.t) (e : Event) : Prop :=
  match e with
  | SetCustomField c f _ =>
      f = FIELD_PM_SCORE ∧
      ∃ tl, get_list W lists "Backlog" = Ok tl ∧ c ∈ WorkList.list_cards tl
  | _ => True
  end.

(** The events of the loop body of [set_pm_score] on the unit of the card
    [c]; they do not depend on the member names of the unit. *)
Definition card_events (W : World) (c : Card.t) : option (list Event) :=
  unit_events W (WorkUnit.mk c [] (is_card_unplanned c)
                             (custom_fields_loop W (Card.custom_fields c) None)
                             (Card.name c)).

Definition card_events_of (W : World) (c : Card.t) : list Event :=
  default [] (card_events W c).

(** A second small board: a backlog whose cards can all be synchronised,
    an issue tracker whose scores are not numbers, and a board that has no
    custom field PM_SCORE. *)
Module Sample2.
Definition upgrade : Card.t :=
  Card.mk "c4" "Upgrade" None [CustomField.mk "BUGZILLA" Sample.url_12345] [].

Definition backlog : WorkList.t :=
  WorkList.mk "backlog" [Sample.fix_login; Sample.write_docs; upgrade].

Definition lists : list WorkList.t := [Sample.doing; backlog].

Definition world_logged_out : World :=
  mkWorld [Board.mk "Team" lists] (λ _ mid, "Name of " +:+ mid) false
          Sample.query_id (λ _, PyInt 7)
          (λ _ _, Ok tt) Sample.unicode_lower Sample.unicode_upper Sample.int_of_str.

Definition world_no_score : World :=
  mkWorld [Board.mk "Team" lists] (λ _ mid, "Name of " +:+ mid) true
          Sample.query_id (λ _, PyStr "n/a")
          (λ _ _, Ok tt) Sample.unicode_lower Sample.unicode_upper Sample.int_of_str.

Definition world_no_field : World :=
  mkWorld [Board.mk "Team" lists] (λ _ mid, "Name of " +:+ mid) true
          Sample.query_id (λ _, PyInt 7)
          (λ _ _, Raise ValueError) Sample.unicode_lower Sample.unicode_upper
          Sample.int_of_str.
End Sample2.

(** The least magnitude of an [int] that [float] cannot convert: halfway
    between the largest binary64 number and [2^1024]. *)
Definition float_limit : Z := (2 ^ 1024 - 2 ^ 970)%Z.

(* ===================================================================== *)
(** * Verification *)
(* ===================================================================== *)

(** ** Case conversion and comparison ignoring case *)

Lemma all_ascii_complete (c : ascii) : In c all_ascii.
Proof.
  unfold all_ascii. rewrite <- (ascii_nat_embedding c).
  apply in_map, in_seq. pose proof (nat_ascii_bounded c). lia.
Qed.

Lemma ascii_forall2 (P : ascii → ascii → bool) :
  forallb (λ a, forallb (P a) all_ascii) all_ascii = true →
  ∀ a b, P a b = true.
Proof.
  intros H a b. rewrite forallb_forall in H.
  specialize (H a (all_ascii_complete a)). rewrite forallb_forall in H.
  exact (H b (all_ascii_complete b)).
Qed.

Lemma ascii_lower_same_letter (a b : ascii) :
  Ascii.eqb (ascii_lower a) (ascii_lower b) = same_letter a b.
Proof.
  apply Bool.eqb_prop.
  revert a b. apply ascii_forall2. vm_compute. reflexivity.
Qed.

Lemma ascii_upper_same_letter (a b : ascii) :
  Ascii.eqb (ascii_upper a) (ascii_upper b) = same_letter a b.
Proof.
  apply Bool.eqb_prop.
  revert a b. apply ascii_forall2. vm_compute. reflexivity.
Qed.

Lemma lower_eq_ignore_case (s t : string) :
  String.eqb (lower s) (lower t) = eq_ignore_case s t.
Proof.
  revert t. induction s as [|a s IH]; intros [|b t]; simpl; try reflexivity.
  rewrite ascii_lower_same_letter, IH.
  destruct (same_letter a b); reflexivity.
Qed.

Lemma upper_eq_ignore_case (s t : string) :
  String.eqb (upper s) (upper t) = eq_ignore_case s t.
Proof.
  revert t. induction s as [|a s IH]; intros [|b t]; simpl; try reflexivity.
  rewrite ascii_upper_same_letter, IH.
  destruct (same_letter a b); reflexivity.
Qed.

Lemma eq_ignore_case_refl (s : string) : eq_ignore_case s s = true.
Proof. rewrite <- lower_eq_ignore_case. apply String.eqb_refl. Qed.

Lemma eq_ignore_case_sym (s t : string) : eq_ignore_case s t = eq_ignore_case t s.
Proof. rewrite <- !lower_eq_ignore_case. apply String.eqb_sym. Qed.

(** The test of [is_card_unplanned] on one label name. *)
Lemma label_test (n : string) :
  String.eqb (upper n) LABEL_UNPLANNED = eq_ignore_case n LABEL_UNPLANNED.
Proof. rewrite <- upper_eq_ignore_case. reflexivity. Qed.

Lemma lower_eq_iff (s t : string) :
  lower s = lower t ↔ eq_ignore_case s t = true.
Proof. rewrite <- lower_eq_ignore_case. symmetry. apply String.eqb_eq. Qed.

Lemma upper_eq_iff (s t : string) :
  upper s = upper t ↔ eq_ignore_case s t = true.
Proof. rewrite <- upper_eq_ignore_case. symmetry. apply String.eqb_eq. Qed.

Lemma ascii_forall1 (P : ascii → bool) :
  forallb P all_ascii = true → ∀ a, P a = true.
Proof. intros H a. rewrite forallb_forall in H. exact (H a (all_ascii_complete a)). Qed.

(** Folding the ASCII letters keeps pure ASCII text pure, and other text
    impure. *)
Lemma isascii_lower (s : string) : isascii (lower s) = isascii s.
Proof.
  induction s as [|a s IH]; simpl; [done|]. rewrite IH. f_equal.
  apply Bool.eqb_prop. revert a. apply ascii_forall1. vm_compute. reflexivity.
Qed.

Lemma isascii_upper (s : string) : isascii (upper s) = isascii s.
Proof.
  induction s as [|a s IH]; simpl; [done|]. rewrite IH. f_equal.
  apply Bool.eqb_prop. revert a. apply ascii_forall1. vm_compute. reflexivity.
Qed.

Lemma eq_ignore_case_isascii (s t : string) :
  eq_ignore_case s t = true → isascii s = isascii t.
Proof.
  intros H. apply lower_eq_iff in H.
  by rewrite <- (isascii_lower s), <- (isascii_lower t), H.
Qed.

Section CaseConversion.
Context (W : World).


Lemma str_upper_ascii (s : string) : isascii s = true → str_upper W s = upper s.
Proof. intros H. unfold str_upper. by rewrite isascii_upper, H. Qed.

(** Names that differ by the case of ASCII letters only are equal ignoring
    case, whatever else they contain. *)
Lemma eq_ignore_case_equal (s t : string) :
  eq_ignore_case s t = true → equal_ignoring_case W s t.
Proof.
  intros H. apply lower_eq_iff in H.
  unfold equal_ignoring_case, str_lower. by rewrite H.
Qed.


Lemma equal_ignoring_case_refl (s : string) : equal_ignoring_case W s s.
Proof. reflexivity. Qed.

Lemma equal_ignoring_case_sym (s t : string) :
  equal_ignoring_case W s t → equal_ignoring_case W t s.
Proof. unfold equal_ignoring_case. congruence. Qed.

Lemma equal_ignoring_case_trans (s t u : string) :
  equal_ignoring_case W s t → equal_ignoring_case W t u → equal_ignoring_case W s u.
Proof. unfold equal_ignoring_case. congruence. Qed.

(** The test of [parse_cards_from_list] on one custom-field name. *)
Lemma field_test (cf : CustomField.t) :
  String.eqb (str_upper W (CustomField.name cf)) FIELD_BUGZILLA
    = bool_decide (is_bugzilla_field W cf).
Proof.
  unfold is_bugzilla_field.
  destruct (String.eqb_spec (str_upper W (CustomField.name cf)) FIELD_BUGZILLA) as [H|H].
  - by rewrite bool_decide_eq_true_2.
  - by rewrite bool_decide_eq_false_2.
Qed.

Lemma is_bugzilla_field_eq_ignore_case (cf : CustomField.t) :
  eq_ignore_case (CustomField.name cf) FIELD_BUGZILLA = true → is_bugzilla_field W cf.
Proof.
  intros H. unfold is_bugzilla_field.
  rewrite str_upper_ascii by (by rewrite (eq_ignore_case_isascii _ _ H)).
  by apply upper_eq_iff in H.
Qed.

Lemma is_bugzilla_field_ascii (cf : CustomField.t) :
  isascii (CustomField.name cf) = true →
  is_bugzilla_field W cf ↔ eq_ignore_case (CustomField.name cf) FIELD_BUGZILLA = true.
Proof.
  intros Ha. unfold is_bugzilla_field. rewrite str_upper_ascii by done.
  rewrite <- upper_eq_iff. reflexivity.
Qed.
End CaseConversion.

(** ** Board and list lookup *)

Lemma get_board_loop_Some (boards : list Board.t) (name : string) (b : Board.t) :
  get_board_loop boards name = Some b ↔
  ∃ pre post, boards = pre ++ b :: post ∧ Board.name b = name ∧
              Forall (λ b', Board.name b' ≠ name) pre.
Proof.
  induction boards as [|b0 boards IH]; simpl.
  - split; [discriminate|]. intros (pre & post & E & _). by destruct pre.
  - destruct (String.eqb_spec (Board.name b0) name) as [Heq|Hne].
    + split.
      * intros [= <-]. exists [], boards. by repeat split.
      * intros (pre & post & E & Hb & Hpre). destruct pre as [|b1 pre]; simpl in E.
        -- by inversion E.
        -- inversion E; subst b1. by inversion Hpre.
    + rewrite IH. split.
      * intros (pre & post & -> & Hb & Hpre). exists (b0 :: pre), post.
        repeat split; [done|]. by constructor.
      * intros (pre & post & E & Hb & Hpre). destruct pre as [|b1 pre]; simpl in E.
        -- inversion E; subst b0. contradiction.
        -- inversion E; subst. inversion Hpre; subst. by exists pre, post.
Qed.

Lemma get_board_loop_None (boards : list Board.t) (name : string) :
  get_board_loop boards name = None ↔ Forall (λ b, Board.name b ≠ name) boards.
Proof.
  induction boards as [|b0 boards IH]; simpl.
  - split; [constructor|done].
  - destruct (String.eqb_spec (Board.name b0) name) as [Heq|Hne].
    + split; [discriminate|]. by inversion 1.
    + rewrite IH. split; [by constructor|by inversion 1].
Qed.

Section Lookup.
Context (W : World).

Lemma get_list_loop_Ok (lists : list WorkList.t) (name : string) (l : WorkList.t) :
  get_list_loop W lists name = Ok l ↔
  ∃ pre post, lists = pre ++ l :: post ∧ str_lower W (WorkList.name l) = name ∧
              Forall (λ l', str_lower W (WorkList.name l') ≠ name) pre.
Proof.
  induction lists as [|l0 lists IH]; simpl.
  - split; [discriminate|]. intros (pre & post & E & _). by destruct pre.
  - destruct (String.eqb_spec (str_lower W (WorkList.name l0)) name) as [Heq|Hne].
    + split.
      * intros [= <-]. exists [], lists. by repeat split.
      * intros (pre & post & E & Hb & Hpre). destruct pre as [|l1 pre]; simpl in E.
        -- by inversion E.
        -- inversion E; subst l1. by inversion Hpre.
    + rewrite IH. split.
      * intros (pre & post & -> & Hb & Hpre). exists (l0 :: pre), post.
        repeat split; [done|]. by constructor.
      * intros (pre & post & E & Hb & Hpre). destruct pre as [|l1 pre]; simpl in E.
        -- inversion E; subst l0. contradiction.
        -- inversion E; subst. inversion Hpre; subst. by exists pre, post.
Qed.


(** [get_list] finds the first list whose name equals the target ignoring
    case. *)
Lemma get_list_Ok (lists : list WorkList.t) (name : string) (l : WorkList.t) :
  get_list W lists name = Ok l ↔
  ∃ pre post, lists = pre ++ l :: post ∧
              equal_ignoring_case W (WorkList.name l) name ∧
              Forall (λ l', ¬ equal_ignoring_case W (WorkList.name l') name) pre.
Proof. unfold get_list. apply get_list_loop_Ok. Qed.

End Lookup.

(** ** Traces *)

Lemma fetched_app (a b : list Event) : fetched (a ++ b) = fetched a ++ fetched b.
Proof. induction a as [|[] a IH]; simpl; by rewrite ?IH. Qed.

Lemma fetched_MemberFetch (l : list string) : fetched (MemberFetch <$> l) = l.
Proof. induction l as [|x l IH]; csimpl; by rewrite ?IH. Qed.

Lemma printed_app (a b : list Event) : printed (a ++ b) = printed a ++ printed b.
Proof. induction a as [|[] a IH]; simpl; by rewrite ?IH. Qed.

Lemma printed_MemberFetch (l : list string) : printed (MemberFetch <$> l) = [].
Proof. induction l as [|x l IH]; csimpl; by rewrite ?IH. Qed.

Lemma tracker_calls_app (a b : list Event) :
  tracker_calls (a ++ b) = tracker_calls a ++ tracker_calls b.
Proof. induction a as [|[] a IH]; simpl; by rewrite ?IH. Qed.

Lemma tracker_calls_MemberFetch (l : list string) : tracker_calls (MemberFetch <$> l) = [].
Proof. induction l as [|x l IH]; csimpl; by rewrite ?IH. Qed.

(** ** Member resolution *)

Lemma new_ids_elem_of (mids : list string) (seen : gset string) (x : string) :
  x ∈ new_ids seen mids ↔ x ∈ mids ∧ x ∉ seen.
Proof.
  revert seen. induction mids as [|mid mids IH]; intros seen; simpl.
  - set_solver.
  - destruct (decide (mid ∈ seen)) as [Hin|Hnin].
    + rewrite IH. set_solver.
    + rewrite elem_of_cons, IH. destruct (decide (x = mid)); set_solver.
Qed.

Lemma new_ids_NoDup (mids : list string) (seen : gset string) :
  NoDup (new_ids seen mids).
Proof.
  revert seen. induction mids as [|mid mids IH]; intros seen; simpl.
  - constructor.
  - destruct (decide (mid ∈ seen)); [apply IH|].
    constructor; [|apply IH]. rewrite new_ids_elem_of. set_solver.
Qed.


Ltac run :=
  unfold mbind, M_bind, mret, M_ret, get_state, lift, raise, print, emit,
         fetch_member in *; simpl in *.

Section Members.
Context (W : World).

Lemma members_loop_spec (mids : list string) :
  ∀ (acc : list string) (st : State),
  ∃ st' names,
    members_loop W mids acc st = (st', Ok (acc ++ names)) ∧
    Forall2 (λ mid nm, MEMBERS_CACHE st' !! mid = Some nm) mids names ∧
    _INCLUDE_MEMBERS st' = _INCLUDE_MEMBERS st ∧
    MEMBERS_CACHE st ⊆ MEMBERS_CACHE st' ∧
    dom (MEMBERS_CACHE st') = dom (MEMBERS_CACHE st) ∪ list_to_set mids ∧
    trace st' = trace st ++ (MemberFetch <$> new_ids (dom (MEMBERS_CACHE st)) mids).
Proof.
  induction mids as [|mid mids IH]; intros acc st.
  - exists st, []. simpl. rewrite !app_nil_r. split_and!; try done.
    set_solver.
  - simpl. run. destruct (decide (MEMBERS_CACHE st !! mid = None)) as [Hnone|Hsome].
    + simpl. rewrite lookup_insert_eq.
      set (nm := full_name W (trace st) mid).
      set (st1 := mkState _ _ _).
      destruct (IH (acc ++ [nm]) st1) as (st' & names & Hrun & Hnames & Hinc & Hsub & Hdom & Htr).
      exists st', (nm :: names). rewrite Hrun, <- app_assoc. simpl in *.
      split_and!; try done.
      * constructor; [|done].
        eapply lookup_weaken; [|exact Hsub]. apply lookup_insert_eq.
      * etrans; [|exact Hsub]. by apply insert_subseteq.
      * rewrite Hdom, dom_insert_L. set_solver.
      * rewrite Htr, dom_insert_L, <- app_assoc. simpl.
        rewrite decide_False; [done|]. by apply not_elem_of_dom.
    + simpl. destruct (MEMBERS_CACHE st !! mid) as [nm|] eqn:Hlk; [|done].
      destruct (IH (acc ++ [nm]) st) as (st' & names & Hrun & Hnames & Hinc & Hsub & Hdom & Htr).
      exists st', (nm :: names). rewrite Hrun, <- app_assoc. simpl.
      split_and!; try done.
      * constructor; [|done]. eapply lookup_weaken; [exact Hlk|exact Hsub].
      * rewrite Hdom. apply elem_of_dom_2 in Hlk. set_solver.
      * rewrite Htr. rewrite decide_True; [done|]. by apply elem_of_dom_2 in Hlk.
Qed.

(** What [list_members_from_card] returns and does, in any state. *)
Lemma list_members_from_card_spec (card : Card.t) (st : State) :
  ∃ st' names,
    list_members_from_card W card st = (st', Ok names) ∧
    _INCLUDE_MEMBERS st' = _INCLUDE_MEMBERS st ∧
    MEMBERS_CACHE st ⊆ MEMBERS_CACHE st' ∧
    (_INCLUDE_MEMBERS st = false → st' = st ∧ names = []) ∧
    (_INCLUDE_MEMBERS st = true →
       Forall2 (λ mid nm, MEMBERS_CACHE st' !! mid = Some nm) (Card.member_id card) names ∧
       dom (MEMBERS_CACHE st') = dom (MEMBERS_CACHE st) ∪ list_to_set (Card.member_id card)) ∧
    ∃ ids,
      trace st' = trace st ++ (MemberFetch <$> ids) ∧
      (_INCLUDE_MEMBERS st = false → ids = []) ∧
      (_INCLUDE_MEMBERS st = true →
         ids = new_ids (dom (MEMBERS_CACHE st)) (Card.member_id card)).
Proof.
  unfold list_members_from_card. run.
  destruct (_INCLUDE_MEMBERS st) eqn:Hinc; simpl.
  - case_bool_decide as Hemp; simpl.
    + exists st, []. rewrite Hemp. split_and!; try done.
      * intros _. split; [constructor|set_solver].
      * exists []. simpl. by rewrite app_nil_r.
    + destruct (members_loop_spec (Card.member_id card) [] st)
        as (st' & names & Hrun & Hnames & Hinc' & Hsub & Hdom & Htr).
      exists st', names. simpl in Hrun. rewrite Hrun.
      split_and!; try done; [congruence|].
      eexists. split; [exact Htr|]. by split.
  - exists st, []. split_and!; try done.
    exists []. simpl. rewrite app_nil_r. by split_and!.
Qed.

Lemma cache_inv_step (st st' : State) (mids : list string) :
  cache_inv st →
  trace st' = trace st ++ (MemberFetch <$> new_ids (dom (MEMBERS_CACHE st)) mids) →
  dom (MEMBERS_CACHE st') = dom (MEMBERS_CACHE st) ∪ list_to_set mids →
  cache_inv st'.
Proof.
  intros [Hnd Hiff] Htr Hdom. unfold cache_inv.
  rewrite Htr, fetched_app, fetched_MemberFetch. split.
  - apply NoDup_app. split; [done|]. split; [|apply new_ids_NoDup].
    intros x Hx. rewrite new_ids_elem_of. rewrite Hiff, <- elem_of_dom in Hx. tauto.
  - intros mid. rewrite elem_of_app, new_ids_elem_of, Hiff, <- !elem_of_dom, Hdom.
    rewrite elem_of_union, elem_of_list_to_set.
    destruct (decide (mid ∈ dom (MEMBERS_CACHE st))); tauto.
Qed.

Lemma list_members_from_card_inv (card : Card.t) (st st' : State) r :
  list_members_from_card W card st = (st', r) → cache_inv st → cache_inv st'.
Proof.
  intros Hrun Hinv.
  destruct (list_members_from_card_spec card st)
    as (st1 & names & Hrun1 & _ & _ & Hoff & Hon & ids & Htr & Hids0 & Hids1).
  rewrite Hrun in Hrun1. injection Hrun1 as <- ->.
  destruct (_INCLUDE_MEMBERS st) eqn:Hinc.
  - destruct (Hon eq_refl) as [_ Hdom].
    eapply cache_inv_step; [done| |exact Hdom]. rewrite Htr. by rewrite Hids1.
  - by destruct (Hoff eq_refl) as [-> _].
Qed.
End Members.

(** ** Building the snapshot of a list *)

Lemma members_of_weaken (include : bool) (c1 c2 : gmap string string) (u : WorkUnit.t) :
  c1 ⊆ c2 → members_of include c1 u → members_of include c2 u.
Proof.
  intros Hsub. unfold members_of. destruct include; [|done].
  intros H. eapply Forall2_impl; [exact H|].
  intros mid nm Hlk. simpl in *. exact (lookup_weaken _ _ _ _ Hlk Hsub).
Qed.

Lemma planned_units_objects {W : World} (cs : list Card.t) (units : list WorkUnit.t) :
  Forall2 (unit_of W) cs units →
  WorkUnit._object <$> planned_units units = filter (λ c, is_card_unplanned c = false) cs ∧
  WorkUnit._object <$> unplanned_units units = filter (λ c, is_card_unplanned c = true) cs.
Proof.
  unfold planned_units, unplanned_units.
  induction 1 as [|c u cs units (Hobj & Hun & _) _ [IH1 IH2]]; [done|].
  rewrite !filter_cons, Hun.
  destruct (is_card_unplanned c); repeat case_decide; try done;
    csimpl; by rewrite IH1, IH2, Hobj.
Qed.

Section Snapshot.
Context (W : World).

Lemma cards_loop_spec (cs : list Card.t) :
  ∀ (cards : Cards.t) (st : State),
  ∃ st' units ids,
    cards_loop W cs cards st =
      (st', Ok (Cards.mk (Cards.planned cards ++ planned_units units)
                         (Cards.unplanned cards ++ unplanned_units units))) ∧
    Forall2 (unit_of W) cs units ∧
    Forall (members_of (_INCLUDE_MEMBERS st) (MEMBERS_CACHE st')) units ∧
    _INCLUDE_MEMBERS st' = _INCLUDE_MEMBERS st ∧
    MEMBERS_CACHE st ⊆ MEMBERS_CACHE st' ∧
    trace st' = trace st ++ (MemberFetch <$> ids) ∧
    (_INCLUDE_MEMBERS st = false → st' = st) ∧
    (cache_inv st → cache_inv st').
Proof.
  induction cs as [|c cs IH]; intros cards st.
  - exists st, [], []. simpl. unfold planned_units, unplanned_units. simpl.
    rewrite !app_nil_r. destruct cards. by split_and!.
  - simpl. run.
    destruct (list_members_from_card_spec W c st)
      as (st1 & names & Hrun1 & Hinc1 & Hsub1 & Hoff & Hon & ids1 & Htr1 & _).
    pose proof (list_members_from_card_inv W c st st1 _ Hrun1) as Hinv1.
    rewrite Hrun1.
    set (u := WorkUnit.mk c names _ _ _).
    destruct (IH (append_card cards u) st1)
      as (st' & units & ids & Hrun & Hunits & Hmem & Hinc & Hsub & Htr & Hoff' & Hinv).
    exists st', (u :: units), (ids1 ++ ids). rewrite Hrun.
    split_and!.
    + f_equal. f_equal. unfold append_card, planned_units, unplanned_units.
      rewrite !filter_cons.
      destruct (WorkUnit.unplanned u) eqn:Hu; repeat case_decide; try done;
        simpl; by rewrite <- app_assoc.
    + constructor; [by split_and!|done].
    + constructor; [|by rewrite <- Hinc1].
      apply (members_of_weaken _ (MEMBERS_CACHE st1)); [done|].
      unfold members_of. destruct (_INCLUDE_MEMBERS st) eqn:Hi; simpl.
      * by destruct (Hon eq_refl).
      * by destruct (Hoff eq_refl).
    + congruence.
    + by etrans.
    + rewrite Htr, Htr1, fmap_app. by rewrite app_assoc.
    + intros Hi. destruct (Hoff Hi) as [-> _]. by apply Hoff'.
    + auto.
Qed.

Lemma parse_cards_from_list_spec (lists : list WorkList.t) (list_name : string)
      (tlist : WorkList.t) (st : State) :
  get_list W lists list_name = Ok tlist →
  ∃ st' units ids,
    parse_cards_from_list W lists list_name st =
      (st', Ok (Cards.mk (planned_units units) (unplanned_units units))) ∧
    Forall2 (unit_of W) (WorkList.list_cards tlist) units ∧
    Forall (members_of (_INCLUDE_MEMBERS st) (MEMBERS_CACHE st')) units ∧
    _INCLUDE_MEMBERS st' = _INCLUDE_MEMBERS st ∧
    MEMBERS_CACHE st ⊆ MEMBERS_CACHE st' ∧
    trace st' = trace st ++ (MemberFetch <$> ids) ∧
    (_INCLUDE_MEMBERS st = false → st' = st) ∧
    (cache_inv st → cache_inv st').
Proof.
  intros Hget. unfold parse_cards_from_list. run. rewrite Hget.
  destruct (cards_loop_spec (WorkList.list_cards tlist) (Cards.mk [] []) st)
    as (st' & units & ids & Hrun & H).
  exists st', units, ids. by rewrite Hrun.
Qed.

Lemma parse_cards_from_list_raise (lists : list WorkList.t) (list_name : string)
      (e : Exn) (st : State) :
  get_list W lists list_name = Raise e →
  parse_cards_from_list W lists list_name st = (st, Raise e).
Proof. intros Hget. unfold parse_cards_from_list. run. by rewrite Hget. Qed.
End Snapshot.

(** ** The report *)

Arguments percentage : simpl never.

Lemma after_nil (st : State) : after st [] = st.
Proof. destruct st. unfold after. simpl. by rewrite app_nil_r. Qed.

Lemma after_after (st : State) (e1 e2 : list Event) :
  after (after st e1) e2 = after st (e1 ++ e2).
Proof. unfold after. simpl. by rewrite app_assoc. Qed.

Lemma after_trace (st st' : State) (evs : list Event) :
  _INCLUDE_MEMBERS st' = _INCLUDE_MEMBERS st →
  MEMBERS_CACHE st' = MEMBERS_CACHE st →
  trace st' = trace st ++ evs →
  st' = after st evs.
Proof. destruct st, st'. unfold after. simpl. by intros -> -> ->. Qed.

Lemma emit_after (e : Event) (st : State) : emit e st = (after st [e], Ok tt).
Proof. reflexivity. Qed.

Lemma len_planned_units {W : World} (cs : list Card.t) (units : list WorkUnit.t) :
  Forall2 (unit_of W) cs units →
  len (planned_units units) = len (filter (λ c, is_card_unplanned c = false) cs) ∧
  len (unplanned_units units) = len (filter (λ c, is_card_unplanned c = true) cs).
Proof.
  intros H. destruct (planned_units_objects cs units H) as [<- <-].
  unfold len. by rewrite !length_fmap.
Qed.

Section Report.
Context (W : World).

Lemma print_card_spec (b : bool) (card : WorkUnit.t) (st : State) :
  print_card b card st =
    (after st (Print <$> card_lines (_INCLUDE_MEMBERS st) b card), Ok tt).
Proof.
  unfold print_card, card_lines. run.
  destruct (_INCLUDE_MEMBERS st) eqn:Hinc; csimpl.
  - unfold after. simpl. by rewrite Hinc, <- app_assoc.
  - unfold after. simpl. by rewrite Hinc.
Qed.

Lemma for_each_print_card (b : bool) (units : list WorkUnit.t) :
  ∀ st : State,
    for_each units (print_card b) st =
      (after st (Print <$> concat (card_lines (_INCLUDE_MEMBERS st) b <$> units)), Ok tt).
Proof.
  induction units as [|u units IH]; intros st.
  - simpl. by rewrite after_nil.
  - simpl. unfold mbind, M_bind. rewrite print_card_spec, IH.
    rewrite after_after. csimpl. by rewrite fmap_app.
Qed.
End Report.

Section ReportSpec.
Context (W : World).

(** The complete behaviour of [print_report] when the four lists exist and
    both percentages can be computed: the four snapshots are built (which
    may look up members), then the summary and the listings are printed. *)
Lemma print_report_spec (lists : list WorkList.t) (st : State)
      (sb doing ir done : WorkList.t) (p q : PyVal) :
  get_list W lists "Sprint Backlog" = Ok sb →
  get_list W lists "Doing" = Ok doing →
  get_list W lists "In Review" = Ok ir →
  get_list W lists "Done" = Ok done →
  let units_planned_done := len (planned_cards done) in
  let units_unplanned_done := len (unplanned_cards done) in
  let units_planned :=
    (len (planned_cards sb) + len (planned_cards doing) +
     len (planned_cards ir) + units_planned_done)%Z in
  let units_unplanned :=
    (len (unplanned_cards sb) + len (unplanned_cards doing) +
     len (unplanned_cards ir) + units_unplanned_done)%Z in
  percentage units_planned_done units_planned = Ok p →
  percentage units_unplanned_done units_unplanned = Ok q →
  ∃ (stp : State) (u_sb u_doing u_ir u_done : list WorkUnit.t) (ids : list string),
    Forall2 (unit_of W) (WorkList.list_cards sb) u_sb ∧
    Forall2 (unit_of W) (WorkList.list_cards doing) u_doing ∧
    Forall2 (unit_of W) (WorkList.list_cards ir) u_ir ∧
    Forall2 (unit_of W) (WorkList.list_cards done) u_done ∧
    _INCLUDE_MEMBERS stp = _INCLUDE_MEMBERS st ∧
    trace stp = trace st ++ (MemberFetch <$> ids) ∧
    (cache_inv st → cache_inv stp) ∧
    print_report W lists st =
      (after stp (Print <$>
         (summary_lines units_planned units_unplanned
                        units_planned_done units_unplanned_done p q ++
          listing_lines (_INCLUDE_MEMBERS st)
            (planned_units u_done) (unplanned_units u_done)
            (planned_units u_sb ++ unplanned_units u_sb ++
             planned_units u_doing ++ unplanned_units u_doing ++
             planned_units u_ir ++ unplanned_units u_ir))), Ok tt).
Proof.
  intros Hsb Hdoing Hir Hdone upd uud up uu Hp Hq.
  destruct (parse_cards_from_list_spec W lists _ sb st Hsb)
    as (st1 & u1 & ids1 & Hrun1 & Hu1 & _ & Hinc1 & _ & Htr1 & _ & Hinv1).
  destruct (parse_cards_from_list_spec W lists _ doing st1 Hdoing)
    as (st2 & u2 & ids2 & Hrun2 & Hu2 & _ & Hinc2 & _ & Htr2 & _ & Hinv2).
  destruct (parse_cards_from_list_spec W lists _ ir st2 Hir)
    as (st3 & u3 & ids3 & Hrun3 & Hu3 & _ & Hinc3 & _ & Htr3 & _ & Hinv3).
  destruct (parse_cards_from_list_spec W lists _ done st3 Hdone)
    as (st4 & u4 & ids4 & Hrun4 & Hu4 & _ & Hinc4 & _ & Htr4 & _ & Hinv4).
  exists st4, u1, u2, u3, u4, (ids1 ++ ids2 ++ ids3 ++ ids4).
  split_and!; try done.
  - congruence.
  - rewrite Htr4, Htr3, Htr2, Htr1, !fmap_app, <- !app_assoc. done.
  - auto.
  - unfold print_report, mbind, M_bind.
    rewrite Hrun1, Hrun2, Hrun3, Hrun4.
    cbn [Cards.planned Cards.unplanned].
    destruct (len_planned_units _ _ Hu1) as [-> ->].
    destruct (len_planned_units _ _ Hu2) as [-> ->].
    destruct (len_planned_units _ _ Hu3) as [-> ->].
    destruct (len_planned_units _ _ Hu4) as [-> ->].
    fold (planned_cards sb) (planned_cards doing) (planned_cards ir) (planned_cards done).
    fold (unplanned_cards sb) (unplanned_cards doing) (unplanned_cards ir)
         (unplanned_cards done).
    fold upd uud. fold up uu.
    unfold print, lift. rewrite Hp, Hq.
    repeat (first [rewrite emit_after | rewrite for_each_print_card]; cbv beta iota).
    rewrite !after_after. cbn [after _INCLUDE_MEMBERS].
    replace (_INCLUDE_MEMBERS st4) with (_INCLUDE_MEMBERS st) by congruence.
    f_equal. f_equal.
    unfold summary_lines, listing_lines.
    rewrite !fmap_app, !concat_app, !fmap_app. csimpl. rewrite <- ?app_assoc. reflexivity.
Qed.
End ReportSpec.

(** ** The synchronisation pass *)

Lemma for_each_app {A} (body : A → M unit) (l1 l2 : list A) (st : State) :
  for_each (l1 ++ l2) body st =
    match for_each l1 body st with
    | (st1, Ok _) => for_each l2 body st1
    | (st1, Raise e) => (st1, Raise e)
    end.
Proof.
  revert st. induction l1 as [|x l1 IH]; intros st; simpl; [done|].
  unfold mbind, M_bind. destruct (body x st) as [st1 [[]|e]]; [apply IH|done].
Qed.

Section Sync.
Context (W : World).

Lemma body_no_reference (card : WorkUnit.t) (st : State) :
  WorkUnit.bugzilla card = None →
  set_pm_score_body W card st = (st, Ok tt).
Proof. intros H. unfold set_pm_score_body. by rewrite H. Qed.

Lemma body_malformed (card : WorkUnit.t) (url : string) (st : State) :
  WorkUnit.bugzilla card = Some url →
  query_id W url = None →
  set_pm_score_body W card st = (st, Raise (KeyError "id")).
Proof. intros H1 H2. unfold set_pm_score_body. by rewrite H1, H2. Qed.

Lemma body_synchronised (card : WorkUnit.t) (url bug_id : string) (n : Z) (st : State) :
  WorkUnit.bugzilla card = Some url →
  query_id W url = Some bug_id →
  custom_field_by_name W (WorkUnit._object card) FIELD_PM_SCORE = Ok tt →
  py_int W (cf_pm_score W bug_id) = Ok n →
  set_pm_score_body W card st = (after st (sync_events W card bug_id n), Ok tt).
Proof.
  intros H1 H2 Hf H3. unfold set_pm_score_body. rewrite H1, H2.
  unfold mbind, M_bind, print, lift. rewrite !emit_after, Hf, H3, emit_after, !after_after.
  reflexivity.
Qed.

(** The events of the body before the field object is looked up. *)
Lemma body_field_error (card : WorkUnit.t) (url bug_id : string) (e : Exn) (st : State) :
  WorkUnit.bugzilla card = Some url →
  query_id W url = Some bug_id →
  custom_field_by_name W (WorkUnit._object card) FIELD_PM_SCORE = Raise e →
  set_pm_score_body W card st =
    (after st [GetBug bug_id; Print (score_line card (cf_pm_score W bug_id))], Raise e).
Proof.
  intros H1 H2 Hf. unfold set_pm_score_body. rewrite H1, H2.
  unfold mbind, M_bind, print, lift. rewrite !emit_after, Hf, !after_after.
  reflexivity.
Qed.

Lemma body_score_error (card : WorkUnit.t) (url bug_id : string) (e : Exn) (st : State) :
  WorkUnit.bugzilla card = Some url →
  query_id W url = Some bug_id →
  custom_field_by_name W (WorkUnit._object card) FIELD_PM_SCORE = Ok tt →
  py_int W (cf_pm_score W bug_id) = Raise e →
  set_pm_score_body W card st =
    (after st [GetBug bug_id; Print (score_line card (cf_pm_score W bug_id))], Raise e).
Proof.
  intros H1 H2 Hf H3. unfold set_pm_score_body. rewrite H1, H2.
  unfold mbind, M_bind, print, lift. rewrite !emit_after, Hf, H3, !after_after.
  reflexivity.
Qed.


(** The body only ever adds events: it changes neither the globals nor
    what has already happened. *)
Lemma body_extends (card : WorkUnit.t) (st : State) :
  ∃ evs r, set_pm_score_body W card st = (after st evs, r).
Proof.
  destruct (WorkUnit.bugzilla card) as [url|] eqn:H1.
  - destruct (query_id W url) as [bug_id|] eqn:H2.
    + destruct (custom_field_by_name W (WorkUnit._object card) FIELD_PM_SCORE)
        as [[]|e'] eqn:Hf.
      * destruct (py_int W (cf_pm_score W bug_id)) as [n|e] eqn:H3.
        -- eexists _, _. by eapply body_synchronised.
        -- eexists _, _. by eapply body_score_error.
      * eexists _, _. by eapply body_field_error.
    + exists [], (Raise (KeyError "id")). rewrite after_nil. by eapply body_malformed.
  - exists [], (Ok tt). rewrite after_nil. by apply body_no_reference.
Qed.

Lemma pass_extends (cards : list WorkUnit.t) :
  ∀ st, ∃ evs r, for_each cards (set_pm_score_body W) st = (after st evs, r).
Proof.
  induction cards as [|card cards IH]; intros st; simpl.
  - exists [], (Ok tt). by rewrite after_nil.
  - unfold mbind, M_bind.
    destruct (body_extends card st) as (evs1 & r1 & ->).
    destruct r1 as [[]|e].
    + destruct (IH (after st evs1)) as (evs2 & r2 & ->).
      exists (evs1 ++ evs2), r2. by rewrite after_after.
    + by exists evs1, (Raise e).
Qed.

(** A unit with no reference can be dropped from the pass, wherever it
    stands, without changing anything. *)
Lemma pass_skip (pre post : list WorkUnit.t) (card : WorkUnit.t) (st : State) :
  WorkUnit.bugzilla card = None →
  for_each (pre ++ card :: post) (set_pm_score_body W) st =
  for_each (pre ++ post) (set_pm_score_body W) st.
Proof.
  intros H. rewrite !for_each_app.
  destruct (for_each pre _ st) as [st1 [[]|e]]; [|done].
  simpl. unfold mbind, M_bind. by rewrite body_no_reference.
Qed.

(** [set_pm_score] is the pass over the units of "Backlog", planned ones
    first, after the snapshot and the optional login. *)
Lemma set_pm_score_spec (lists : list WorkList.t) (backlog : WorkList.t) (st : State) :
  get_list W lists "Backlog" = Ok backlog →
  ∃ (stp : State) (units : list WorkUnit.t) (ids : list string),
    Forall2 (unit_of W) (WorkList.list_cards backlog) units ∧
    _INCLUDE_MEMBERS stp = _INCLUDE_MEMBERS st ∧
    trace stp = trace st ++ (MemberFetch <$> ids) ∧
    set_pm_score W lists st =
      for_each (planned_units units ++ unplanned_units units) (set_pm_score_body W)
               (after stp (if logged_in W then [] else [InteractiveLogin])).
Proof.
  intros Hget.
  destruct (parse_cards_from_list_spec W lists _ backlog st Hget)
    as (st1 & units & ids & Hrun & Hu & _ & Hinc & _ & Htr & _).
  exists st1, units, ids. split_and!; try done.
  unfold set_pm_score, mbind, M_bind. rewrite Hrun.
  cbn [Cards.planned Cards.unplanned].
  destruct (logged_in W).
  - unfold mret, M_ret. by rewrite after_nil.
  - by rewrite emit_after.
Qed.
End Sync.

(** ** Binary64 arithmetic on integers *)

Section Floats.
Local Open Scope Z_scope.

Lemma digits2_pos_size (p : positive) : digits2_pos p = Pos.size p.
Proof. induction p as [p IH|p IH|]; simpl; by rewrite ?IH. Qed.

Lemma Zdigits2_log2 (m : Z) : 0 < m → Zdigits2 m = Z.log2 m + 1.
Proof.
destruct m as [|p|p]; try lia. intros _. simpl. rewrite digits2_pos_size.
destruct p; simpl; lia.
Qed.

Lemma Zdigits2_unique (m d : Z) : 2 ^ (d - 1) ≤ m < 2 ^ d → 0 < d → Zdigits2 m = d.
Proof.
intros H Hd. assert (0 < m) by (pose proof (Z.pow_pos_nonneg 2 (d - 1)); lia).
rewrite Zdigits2_log2 by done.
rewrite (Z.log2_unique m (d - 1)); [lia|lia|].
by replace (Z.succ (d - 1)) with d by lia.
Qed.

Lemma Zdigits2_bounds (m : Z) : 0 < m → 2 ^ (Zdigits2 m - 1) ≤ m < 2 ^ Zdigits2 m.
Proof.
intros H. rewrite Zdigits2_log2 by done.
pose proof (Z.log2_spec m H).
replace (Z.log2 m + 1 - 1) with (Z.log2 m) by lia.
replace (Z.log2 m + 1) with (Z.succ (Z.log2 m)) by lia. done.
Qed.

Lemma Zdigits2_pos (m : Z) : 0 < m → 0 < Zdigits2 m.
Proof. intros H. rewrite Zdigits2_log2 by done. pose proof (Z.log2_nonneg m). lia. Qed.

Lemma Zdigits2_mul_pow2 (m k : Z) : 0 < m → 0 ≤ k → Zdigits2 (m * 2 ^ k) = Zdigits2 m + k.
Proof.
intros Hm Hk. rewrite !Zdigits2_log2; [|done|].
- rewrite Z.log2_mul_pow2 by lia. lia.
- pose proof (Z.pow_pos_nonneg 2 k). lia.
Qed.


(** Shifting right a number that ends with enough zero bits loses nothing. *)
Lemma shr_1_even (m : Z) :
0 < m → shr_1 (Build_shr_record (2 * m) false false) = Build_shr_record m false false.
Proof. destruct m as [|p|p]; try lia. done. Qed.

Lemma pow2_xI (n : positive) : 2 ^ Z.pos n~1 = 2 * (2 ^ Z.pos n * 2 ^ Z.pos n).
Proof.
replace (Z.pos n~1) with (Z.pos n + Z.pos n + 1) by lia.
rewrite !Z.pow_add_r by lia. lia.
Qed.

Lemma pow2_xO (n : positive) : 2 ^ Z.pos n~0 = 2 ^ Z.pos n * 2 ^ Z.pos n.
Proof.
replace (Z.pos n~0) with (Z.pos n + Z.pos n) by lia.
by rewrite Z.pow_add_r by lia.
Qed.

Lemma pow2_pos (k : Z) : 0 ≤ k → 0 < 2 ^ k.
Proof. intros. by apply Z.pow_pos_nonneg. Qed.

Lemma iter_shr_1_exact (n : positive) :
∀ m, 0 < m →
  SpecFloat.iter_pos shr_1 n (Build_shr_record (m * 2 ^ Z.pos n) false false) =
  Build_shr_record m false false.
Proof.
induction n as [n IH|n IH|]; intros m Hm.
- rewrite pow2_xI. cbn [SpecFloat.iter_pos].
  pose proof (pow2_pos (Z.pos n) ltac:(lia)).
  replace (m * (2 * (2 ^ Z.pos n * 2 ^ Z.pos n)))
    with (2 * ((m * 2 ^ Z.pos n) * 2 ^ Z.pos n)) by ring.
  rewrite shr_1_even by nia. rewrite IH by nia. by apply IH.
- rewrite pow2_xO. cbn [SpecFloat.iter_pos].
  pose proof (pow2_pos (Z.pos n) ltac:(lia)).
  replace (m * (2 ^ Z.pos n * 2 ^ Z.pos n))
    with ((m * 2 ^ Z.pos n) * 2 ^ Z.pos n) by ring.
  rewrite IH by nia. by apply IH.
- cbn [SpecFloat.iter_pos]. replace (m * 2 ^ 1) with (2 * m) by lia.
  by apply shr_1_even.
Qed.

(** In general a right shift keeps every lower bound that survives the
  division. *)
Lemma shr_1_lower (mrs : shr_record) (x : Z) :
2 * x ≤ shr_m mrs → x ≤ shr_m (shr_1 mrs).
Proof. destruct mrs as [[|[p|p|]|[p|p|]] r s]; simpl; lia. Qed.

Lemma iter_shr_1_lower (n : positive) :
∀ mrs x, x * 2 ^ Z.pos n ≤ shr_m mrs → x ≤ shr_m (SpecFloat.iter_pos shr_1 n mrs).
Proof.
induction n as [n IH|n IH|]; intros mrs x Hx.
- rewrite pow2_xI in Hx. cbn [SpecFloat.iter_pos].
  apply IH, IH, shr_1_lower. lia.
- rewrite pow2_xO in Hx. cbn [SpecFloat.iter_pos].
  apply IH, IH. lia.
- cbn [SpecFloat.iter_pos]. apply shr_1_lower. lia.
Qed.

Lemma shr_m_of_loc (m : Z) (l : location) : shr_m (shr_record_of_loc m l) = m.
Proof. by destruct l as [|[]]. Qed.

Lemma round_nearest_even_lower (m : Z) (l : location) : m ≤ round_nearest_even m l.
Proof. destruct l as [|[]]; simpl; try lia. destruct (Z.even m); lia. Qed.

Lemma fexp_normal (x : Z) : -1021 ≤ x → fexp prec emax x = x - 53.
Proof. intros. unfold fexp, SpecFloat.emin, prec, emax. apply Z.max_l. lia. Qed.

(** The first step of rounding: a mantissa of at least 53 bits at an
  exponent in range is cut down to a mantissa that is still at least
  [2^52]. *)
Lemma shr_fexp_lower (m e : Z) (l : location) :
0 < m → 53 ≤ Zdigits2 m → -1074 ≤ e →
2 ^ 52 ≤ shr_m (fst (shr_fexp prec emax m e l)) ∧
-1074 ≤ snd (shr_fexp prec emax m e l).
Proof.
intros Hm Hd He.
pose proof (Zdigits2_bounds m Hm) as [Hlo _].
unfold shr_fexp. rewrite fexp_normal by lia.
replace (Zdigits2 m + e - 53 - e) with (Zdigits2 m - 53) by lia.
assert (Hpow : 2 ^ (Zdigits2 m - 1) = 2 ^ 52 * 2 ^ (Zdigits2 m - 53)).
{ rewrite <- Z.pow_add_r by lia. f_equal. lia. }
destruct (Zdigits2 m - 53) as [|n|n] eqn:Hn; try lia; simpl.
- rewrite shr_m_of_loc. split; [|done].
  replace (Zdigits2 m - 1) with 52 in Hlo by lia. done.
- split; [|lia]. apply iter_shr_1_lower. rewrite shr_m_of_loc. lia.
Qed.

(** Rounding a positive number whose mantissa has at least 53 bits never
  gives zero or a NaN: the result is finite with the same sign, or
  infinite. *)
Lemma binary_round_aux_finite_or_inf (s : bool) (m e : Z) (l : location) :
0 < m → 53 ≤ Zdigits2 m → -1074 ≤ e →
(∃ m' e', binary_round_aux prec emax s m e l = S754_finite s m' e') ∨
binary_round_aux prec emax s m e l = S754_infinity s.
Proof.
intros Hm Hd He. unfold binary_round_aux.
pose proof (shr_fexp_lower m e l Hm Hd He) as [H1 He1].
destruct (shr_fexp prec emax m e l) as [mrs1 e1]. simpl in H1, He1.
set (m2 := round_nearest_even (shr_m mrs1) (loc_of_shr_record mrs1)).
assert (H2 : 2 ^ 52 ≤ m2).
{ pose proof (round_nearest_even_lower (shr_m mrs1) (loc_of_shr_record mrs1)).
  unfold m2. lia. }
assert (Hm2 : 0 < m2) by lia.
assert (Hd2 : 53 ≤ Zdigits2 m2).
{ rewrite Zdigits2_log2 by done.
  pose proof (Z.log2_le_mono (2 ^ 52) m2 H2) as Hl.
  rewrite Z.log2_pow2 in Hl by lia. lia. }
pose proof (shr_fexp_lower m2 e1 loc_Exact Hm2 Hd2 He1) as [H3 _].
destruct (shr_fexp prec emax m2 e1 loc_Exact) as [mrs2 e2]. simpl in H3.
destruct (shr_m mrs2) as [|p|p]; try lia.
destruct (e2 <=? emax - prec); eauto.
Qed.

Lemma shr_exact (m k e : Z) :
0 < m → 0 ≤ k →
shr (Build_shr_record (m * 2 ^ k) false false) e k =
  (Build_shr_record m false false, e + k).
Proof.
intros Hm Hk. destruct k as [|n|n]; try lia; simpl shr.
- f_equal; [f_equal|]; lia.
- by rewrite iter_shr_1_exact.
Qed.

(** Rounding is exact on a 53-bit mantissa followed by zero bits. *)
Lemma binary_round_aux_exact (s : bool) (q k e : Z) :
2 ^ 52 ≤ q < 2 ^ 53 → 0 ≤ k → -1074 ≤ e + k ≤ 971 →
binary_round_aux prec emax s (q * 2 ^ k) e loc_Exact = S754_finite s (Z.to_pos q) (e + k).
Proof.
intros Hq Hk He.
assert (Hdq : Zdigits2 q = 53) by (apply Zdigits2_unique; lia).
unfold binary_round_aux, shr_fexp.
rewrite Zdigits2_mul_pow2, Hdq by lia.
rewrite fexp_normal by lia.
replace (53 + k + e - 53 - e) with k by lia.
cbn [shr_record_of_loc]. rewrite shr_exact by lia.
cbn [shr_m loc_of_shr_record round_nearest_even].
rewrite Hdq, fexp_normal by lia.
replace (53 + (e + k) - 53 - (e + k)) with 0 by lia.
cbn [shr_record_of_loc shr shr_m].
destruct q as [|p|p]; try lia.
unfold emax, prec. rewrite Pos2Z.id.
destruct (Z.leb_spec (e + k) (1024 - 53)); [done|lia].
Qed.

Lemma Zpos_iter_xO (p n : positive) : Z.pos (Pos.iter xO p n) = Z.pos p * 2 ^ Z.pos n.
Proof.
change (Pos.iter xO p n) with (shift_pos n p).
rewrite shift_pos_correct, Zpower_pos_powerRZ || rewrite shift_pos_correct.
rewrite Z.pow_pos_fold. lia.
Qed.

Lemma exact_float_bounds (n : Z) :
0 < n < 2 ^ 53 →
2 ^ 52 ≤ n * 2 ^ (53 - Zdigits2 n) < 2 ^ 53 ∧ 0 < Zdigits2 n ≤ 53.
Proof.
intros [Hn Hlt]. pose proof (Zdigits2_bounds n Hn) as [Hlo Hhi].
pose proof (Zdigits2_pos n Hn) as Hd.
assert (Zdigits2 n ≤ 53).
{ destruct (Z.le_gt_cases (Zdigits2 n) 53) as [|Hgt]; [done|].
  assert (2 ^ 53 ≤ 2 ^ (Zdigits2 n - 1)) by (apply Z.pow_le_mono_r; lia). lia. }
split; [|lia].
assert (E1 : 2 ^ 52 = 2 ^ (Zdigits2 n - 1) * 2 ^ (53 - Zdigits2 n)).
{ rewrite <- Z.pow_add_r by lia. f_equal. lia. }
assert (E2 : 2 ^ 53 = 2 ^ Zdigits2 n * 2 ^ (53 - Zdigits2 n)).
{ rewrite <- Z.pow_add_r by lia. f_equal. lia. }
pose proof (pow2_pos (53 - Zdigits2 n) ltac:(lia)).
rewrite E1 at 1. rewrite E2. nia.
Qed.

(** Rounding an integer below [2^53] is exact, whatever the sign. *)
Lemma binary_round_exact (s : bool) (p : positive) :
  Z.pos p < 2 ^ 53 →
  binary_round prec emax s p 0 =
    S754_finite s (Z.to_pos (Z.pos p * 2 ^ (53 - Zdigits2 (Z.pos p))))
                (Zdigits2 (Z.pos p) - 53).
Proof.
  intros Hp. destruct (exact_float_bounds (Z.pos p) ltac:(lia)) as [Hq Hd].
  unfold binary_round.
  replace (Z.pos (digits2_pos p)) with (Zdigits2 (Z.pos p)) by done.
  set (d := Zdigits2 (Z.pos p)) in *.
  rewrite fexp_normal by lia. unfold shl_align.
  replace (d + 0 - 53 - 0) with (d - 53) by lia.
  replace (d + 0 - 53) with (d - 53) by lia.
  destruct (d - 53) as [|k|k] eqn:Hk; try lia.
  - replace (53 - d) with 0 in * by lia. rewrite Z.mul_1_r in *.
    pose proof (binary_round_aux_exact s (Z.pos p) 0 0) as H.
    rewrite Z.mul_1_r in H. by rewrite H by lia.
  - replace (53 - d) with (Z.pos k) in * by lia.
    pose proof (binary_round_aux_exact s (Z.pos p * 2 ^ Z.pos k) 0 (d - 53)) as H.
    rewrite Z.mul_1_r, Z.add_0_r in H. rewrite <- Zpos_iter_xO in H.
    rewrite Hk in H. rewrite H.
    + rewrite <- Zpos_iter_xO, Pos2Z.id. done.
    + by rewrite Zpos_iter_xO.
    + lia.
    + lia.
Qed.

(** [float(n)] is exact below [2^53]. *)
Lemma py_float_exact (n : Z) :
  0 < n < 2 ^ 53 → py_float n = Ok (exact_float n).
Proof.
  intros Hn. unfold py_float, exact_float. destruct n as [|p|p]; try lia.
  cbn [binary_normalize]. by rewrite binary_round_exact by lia.
Qed.

(** [float(n)] does not overflow for [|n| < 2^53]. *)
Lemma py_float_small (n : Z) :
  - 2 ^ 53 < n < 2 ^ 53 → ∃ f, py_float n = Ok f.
Proof.
  intros Hn. unfold py_float. destruct n as [|p|p].
  - by eexists.
  - cbn [binary_normalize]. rewrite binary_round_exact by lia. by eexists.
  - cbn [binary_normalize]. rewrite binary_round_exact by lia. by eexists.
Qed.

(** [float(n)] of a positive [n] is a positive finite number, unless it
  overflows. *)
Lemma py_float_positive (n : Z) :
0 < n →
(∃ m e, py_float n = Ok (S754_finite false m e)) ∨ py_float n = Raise OverflowError.
Proof.
intros Hn. unfold py_float. destruct n as [|p|p]; try lia.
cbn [binary_normalize]. unfold binary_round.
replace (Z.pos (digits2_pos p)) with (Zdigits2 (Z.pos p)) by done.
pose proof (Zdigits2_pos (Z.pos p) Hn) as Hd.
set (d := Zdigits2 (Z.pos p)) in *.
rewrite fexp_normal by lia. unfold shl_align.
replace (d + 0 - 53 - 0) with (d - 53) by lia.
replace (d + 0 - 53) with (d - 53) by lia.
assert (Hcases :
  ∀ mz ez, 0 < mz → 53 ≤ Zdigits2 mz → -1074 ≤ ez →
    (∃ m e, match binary_round_aux prec emax false mz ez loc_Exact with
            | S754_infinity _ => Raise OverflowError
            | f => Ok f
            end = Ok (S754_finite false m e)) ∨
    match binary_round_aux prec emax false mz ez loc_Exact with
    | S754_infinity _ => Raise OverflowError
    | f => Ok f
    end = Raise OverflowError).
{ intros mz ez H1 H2 H3.
  destruct (binary_round_aux_finite_or_inf false mz ez loc_Exact H1 H2 H3)
    as [(m & e & ->)| ->]; eauto. }
destruct (d - 53) as [|k|k] eqn:Hk.
- apply Hcases; lia.
- apply Hcases; lia.
- apply Hcases; [lia| |lia].
  rewrite Zpos_iter_xO, Zdigits2_mul_pow2 by lia. fold d. lia.
Qed.

(** [100 * float(n)] is exact as long as [100 * n] is below [2^53]. *)
Lemma mul_100_exact (n : Z) :
0 < n → 100 * n < 2 ^ 53 →
SFmul prec emax float_100 (exact_float n) = exact_float (100 * n).
Proof.
intros Hn H100.
destruct (exact_float_bounds n ltac:(lia)) as [Hq Hd].
destruct (exact_float_bounds (100 * n) ltac:(lia)) as [Hq' Hd'].
assert (Hmono : Zdigits2 n ≤ Zdigits2 (100 * n)).
{ rewrite !Zdigits2_log2 by lia.
  pose proof (Z.log2_le_mono n (100 * n) ltac:(lia)). lia. }
unfold float_100, exact_float.
set (d := Zdigits2 n) in *. set (D := Zdigits2 (100 * n)) in *.
cbn [SFmul xorb].
pose proof (binary_round_aux_exact false (100 * n * 2 ^ (53 - D)) (46 + D - d) (-46 + (d - 53)))
  as H.
replace (-46 + (d - 53) + (46 + D - d)) with (D - 53) in H by lia.
rewrite <- H; [|lia|lia|lia]. f_equal.
rewrite Pos2Z.inj_mul, Z2Pos.id by lia.
rewrite <- Z.mul_assoc, <- Z.pow_add_r by lia.
replace (53 - D + (46 + D - d)) with (46 + (53 - d)) by lia.
rewrite Z.pow_add_r by lia. change (2 ^ 46) with 70368744177664. lia.
Qed.

(** Division of two 53-bit mantissas whose quotient is a 53-bit mantissa
  followed by zero bits is exact. *)
Lemma SFdiv_exact (m1 m2 : positive) (e1 e2 q k : Z) :
Zdigits2 (Z.pos m1) = 53 → Zdigits2 (Z.pos m2) = 53 →
-1021 ≤ e1 - e2 →
2 ^ 52 ≤ q < 2 ^ 53 → 0 ≤ k →
Z.pos m1 * 2 ^ 53 = (q * 2 ^ k) * Z.pos m2 →
-1074 ≤ e1 - e2 - 53 + k ≤ 971 →
SFdiv prec emax (S754_finite false m1 e1) (S754_finite false m2 e2) =
  S754_finite false (Z.to_pos q) (e1 - e2 - 53 + k).
Proof.
intros Hd1 Hd2 He Hq Hk Hdiv Hr.
unfold SFdiv, SFdiv_core_binary. rewrite Hd1, Hd2.
replace (53 + e1 - (53 + e2)) with (e1 - e2) by lia.
rewrite fexp_normal by lia.
rewrite Z.min_l by lia.
replace (e1 - e2 - (e1 - e2 - 53)) with 53 by lia.
cbv beta iota. rewrite Z.shiftl_mul_pow2 by lia. rewrite Hdiv.
destruct (Z.div_eucl (q * 2 ^ k * Z.pos m2) (Z.pos m2)) as [qq r] eqn:E.
assert (qq = q * 2 ^ k).
{ change qq with (fst (qq, r)). rewrite <- E.
  change (fst (Z.div_eucl ?a ?b)) with (a / b). apply Z.div_mul. lia. }
assert (r = 0).
{ change r with (snd (qq, r)). rewrite <- E.
  change (snd (Z.div_eucl ?a ?b)) with (a mod b). apply Z.mod_mul. lia. }
subst qq r.
assert (Hloc : new_location (Z.pos m2) 0 = loc_Exact).
{ unfold new_location, new_location_even, new_location_odd.
  by destruct (Z.even (Z.pos m2)). }
rewrite Hloc. cbn [xorb]. by apply binary_round_aux_exact.
Qed.

Lemma exact_float_digits (n : Z) :
0 < n < 2 ^ 53 → Zdigits2 (Z.pos (Z.to_pos (n * 2 ^ (53 - Zdigits2 n)))) = 53.
Proof.
intros Hn. destruct (exact_float_bounds n Hn) as [Hq Hd].
rewrite Z2Pos.id by lia. apply Zdigits2_unique; lia.
Qed.

(** [float(100 * w) / float(w)] is exactly [100.0]. *)
Lemma div_100_exact (w : Z) :
0 < w → 100 * w < 2 ^ 53 →
SFdiv prec emax (exact_float (100 * w)) (exact_float w) = float_100.
Proof.
intros Hw H100.
destruct (exact_float_bounds w ltac:(lia)) as [Hq Hd].
destruct (exact_float_bounds (100 * w) ltac:(lia)) as [Hq' Hd'].
pose proof (exact_float_digits w ltac:(lia)) as Hdig.
pose proof (exact_float_digits (100 * w) ltac:(lia)) as Hdig'.
assert (Hlo : Zdigits2 w ≤ Zdigits2 (100 * w)).
{ rewrite !Zdigits2_log2 by lia.
  pose proof (Z.log2_le_mono w (100 * w) ltac:(lia)). lia. }
assert (Hhi : Zdigits2 (100 * w) ≤ Zdigits2 w + 7).
{ rewrite !Zdigits2_log2 by lia.
  pose proof (Z.log2_le_mono (100 * w) (w * 2 ^ 7) ltac:(lia)) as Hl.
  rewrite Z.log2_mul_pow2 in Hl by lia. lia. }
unfold exact_float.
set (d := Zdigits2 w) in *. set (D := Zdigits2 (100 * w)) in *.
rewrite (SFdiv_exact _ _ _ _ 7036874417766400 (7 - (D - d))); try lia; try done.
- unfold float_100. f_equal. lia.
- rewrite !Z2Pos.id by lia.
  replace (100 * w * 2 ^ (53 - D) * 2 ^ 53) with (100 * w * (2 ^ (53 - D) * 2 ^ 53)) by ring.
  replace (7036874417766400 * 2 ^ (7 - (D - d)) * (w * 2 ^ (53 - d)))
    with (100 * w * (2 ^ 46 * (2 ^ (7 - (D - d)) * 2 ^ (53 - d)))).
  + rewrite <- !Z.pow_add_r by lia. do 2 f_equal. lia.
  + change (2 ^ 46) with 70368744177664. ring.
Qed.
End Floats.

(** ** Classification of cards *)

Lemma labels_loop_true (labels : list Label.t) :
  labels_loop labels = true ↔
  ∃ l, l ∈ labels ∧ eq_ignore_case (Label.name l) LABEL_UNPLANNED = true.
Proof.
  induction labels as [|l0 labels IH]; simpl.
  - split; [discriminate|]. intros (l & Hl & _). by apply elem_of_nil in Hl.
  - rewrite label_test.
    destruct (eq_ignore_case (Label.name l0) LABEL_UNPLANNED) eqn:E.
    + split; [|done]. intros _. exists l0. split; [left|done].
    + rewrite IH. split.
      * intros (l & Hl & Hm). exists l. split; [by right|done].
      * intros (l & Hl & Hm). apply elem_of_cons in Hl as [->|Hl]; [congruence|].
        by exists l.
Qed.

Lemma unit_of_planned {W : World} (cs : list Card.t) (units : list WorkUnit.t) :
  Forall2 (unit_of W) cs units →
  Forall (λ u, WorkUnit.unplanned u = false ∧
               is_card_unplanned (WorkUnit._object u) = false) (planned_units units) ∧
  Forall (λ u, WorkUnit.unplanned u = true ∧
               is_card_unplanned (WorkUnit._object u) = true) (unplanned_units units).
Proof.
  unfold planned_units, unplanned_units.
  induction 1 as [|c u cs units (Hobj & Hun & _) _ [IH1 IH2]]; [by split|].
  rewrite !filter_cons. subst c.
  destruct (WorkUnit.unplanned u) eqn:Hu; repeat case_decide; try done;
    split; try done; constructor; done.
Qed.

Lemma partition_permutation (cs : list Card.t) :
  filter (λ c, is_card_unplanned c = false) cs ++
  filter (λ c, is_card_unplanned c = true) cs ≡ₚ cs.
Proof.
  induction cs as [|c cs IH]; [done|].
  rewrite !filter_cons.
  destruct (is_card_unplanned c); repeat case_decide; try done; simpl.
  - by rewrite <- Permutation_middle, IH.
  - by rewrite IH.
Qed.

(** C1. Classification is a total partition. A card is unplanned exactly
    when one of its labels is named UNPLANNED up to case, and planned
    otherwise ([is_card_unplanned] is a total boolean). For a list that
    [get_list] finds, [parse_cards_from_list] returns the planned cards of
    the list under ['planned'] and the unplanned ones under ['unplanned'],
    each sequence in the order of [list_cards()]; every unit carries the
    flag of its card, and the two sequences together hold each card of the
    list exactly once. *)
Theorem C1_classification_partition
        (W : World) (lists : list WorkList.t) (list_name : string)
        (tlist : WorkList.t) (st : State) :
  get_list W lists list_name = Ok tlist →
  (∀ card : Card.t,
     is_card_unplanned card = true ↔
     ∃ l, l ∈ default [] (Card.labels card) ∧
          eq_ignore_case (Label.name l) "UNPLANNED" = true) ∧
  ∃ (st' : State) (cards : Cards.t),
    parse_cards_from_list W lists list_name st = (st', Ok cards) ∧
    WorkUnit._object <$> Cards.planned cards = planned_cards tlist ∧
    WorkUnit._object <$> Cards.unplanned cards = unplanned_cards tlist ∧
    Forall (λ u, WorkUnit.unplanned u = false ∧
                 is_card_unplanned (WorkUnit._object u) = false) (Cards.planned cards) ∧
    Forall (λ u, WorkUnit.unplanned u = true ∧
                 is_card_unplanned (WorkUnit._object u) = true) (Cards.unplanned cards) ∧
    WorkUnit._object <$> (Cards.planned cards ++ Cards.unplanned cards)
      ≡ₚ WorkList.list_cards tlist.
Proof.
  intros Hget. split.
  - intros card. unfold is_card_unplanned. apply labels_loop_true.
  - destruct (parse_cards_from_list_spec W lists list_name tlist st Hget)
      as (st' & units & ids & Hrun & Hunits & _).
    destruct (planned_units_objects _ _ Hunits) as [Hp Hu].
    destruct (unit_of_planned _ _ Hunits) as [Fp Fu].
    exists st', (Cards.mk (planned_units units) (unplanned_units units)).
    cbn [Cards.planned Cards.unplanned]. split_and!; try done.
    rewrite fmap_app, Hp, Hu. apply partition_permutation.
Qed.

Lemma C1_classification_partition_witness :
  get_list Sample.world Sample.lists "done" = Ok Sample.done ∧
  ∃ (st' : State) (cards : Cards.t),
    parse_cards_from_list Sample.world Sample.lists "done" (initial_state false)
      = (st', Ok cards) ∧
    WorkUnit._object <$> Cards.planned cards = planned_cards Sample.done ∧
    WorkUnit._object <$> Cards.unplanned cards = unplanned_cards Sample.done.
Proof.
  split; [reflexivity|].
  destruct (C1_classification_partition Sample.world Sample.lists "done" Sample.done
              (initial_state false) eq_refl)
    as (_ & st' & cards & H1 & H2 & H3 & _).
  exists st', cards. split; [exact H1|]. split; [exact H2|exact H3].
Defined.

(** ** Lookup failures *)




Section Missing.
Context (W : World).




End Missing.



(** C10. [get_board] compares names exactly. It returns the first open
    board whose name is the requested one, character for character; when
    no open board has exactly that name it returns [None] and raises
    nothing, and [main] then reports the board as not found and ends. A
    name that differs from the request only by case is not found by
    [get_board], although [get_list] finds a list so named. *)
Theorem C10_board_lookup_exact (W : World) (name : string) :
  (∀ b, get_board W name = Some b ↔
        ∃ pre post, list_boards W = pre ++ b :: post ∧ Board.name b = name ∧
                    Forall (λ b', Board.name b' ≠ name) pre) ∧
  (get_board W name = None ↔ Forall (λ b, Board.name b ≠ name) (list_boards W)) ∧
  (∀ command st,
     get_board W name = None →
     main W name (Some command) st =
       (after st [Print [Fmt "Board %s not found" [PyStr name]]], Ok tt)) ∧
  (∀ (b : Board.t) (l : WorkList.t),
     Board.name b ≠ name → eq_ignore_case (Board.name b) name = true →
     WorkList.name l = Board.name b →
     list_boards W = [b] →
     get_board W name = None ∧ get_list W [l] name = Ok l).
Proof.
  split_and!.
  - intros b. apply get_board_loop_Some.
  - apply get_board_loop_None.
  - intros command st H. unfold main. rewrite H. reflexivity.
  - intros b l Hne Hci Hl Hb. split.
    + apply get_board_loop_None. rewrite Hb. by repeat constructor.
    + apply get_list_Ok. exists [], []. split_and!; [done| |constructor].
      apply eq_ignore_case_equal. by rewrite Hl.
Qed.

Lemma C10_board_lookup_exact_witness :
  get_board Sample.world "Team" = Some Sample.board ∧
  get_board Sample.world "team" = None ∧
  get_list Sample.world [WorkList.mk "Team" []] "team" = Ok (WorkList.mk "Team" []) ∧
  main Sample.world "team" (Some "report") (initial_state false) =
    (after (initial_state false) [Print [Fmt "Board %s not found" [PyStr "team"]]], Ok tt).
Proof.
  destruct (C10_board_lookup_exact Sample.world "team") as (_ & _ & Hmain & Hcase).
  destruct (Hcase Sample.board (WorkList.mk "Team" [])) as [Hnone Hlist];
    [discriminate|reflexivity|reflexivity|reflexivity|].
  split; [reflexivity|]. split; [exact Hnone|]. split; [exact Hlist|].
  apply Hmain. exact Hnone.
Defined.

(** ** The bugzilla reference of a unit *)

Lemma custom_fields_loop_last (W : World) (cfs : list CustomField.t) (bz : option string) :
  custom_fields_loop W cfs bz =
    match last (CustomField.value <$> filter (is_bugzilla_field W) cfs) with
    | Some v => Some v
    | None => bz
    end.
Proof.
  revert bz. induction cfs as [|cf cfs IH]; intros bz; [done|].
  simpl. rewrite IH, field_test, filter_cons.
  destruct (decide (is_bugzilla_field W cf)) as [Hm|Hn].
  - rewrite bool_decide_eq_true_2 by done. rewrite fmap_cons.
    destruct (CustomField.value <$> filter (is_bugzilla_field W) cfs) as [|v vs] eqn:Ev.
    + done.
    + change (last (CustomField.value cf :: v :: vs)) with (last (v :: vs)).
      by destruct (last (v :: vs)) eqn:El; [|by apply last_None in El].
  - by rewrite bool_decide_eq_false_2.
Qed.

Lemma unit_of_elem {W : World} (cs : list Card.t) (units : list WorkUnit.t) :
  Forall2 (unit_of W) cs units →
  (∀ u, u ∈ planned_units units ++ unplanned_units units →
        u ∈ units ∧ ∃ c, c ∈ cs ∧ unit_of W c u) ∧
  (∀ c, c ∈ cs → ∃ u, u ∈ planned_units units ++ unplanned_units units ∧ unit_of W c u).
Proof.
  intros H. split.
  - intros u Hu.
    assert (u ∈ units) as Hin.
    { unfold planned_units, unplanned_units in Hu.
      apply elem_of_app in Hu as [Hu|Hu]; by apply list_elem_of_filter in Hu as [_ Hu]. }
    split; [done|].
    apply list_elem_of_lookup in Hin as [i Hi].
    destruct (Forall2_lookup_r _ _ _ _ _ H Hi) as (c & Hc & Hcu).
    exists c. split; [|done]. by eapply list_elem_of_lookup_2.
  - intros c Hc. apply list_elem_of_lookup in Hc as [i Hi].
    destruct (Forall2_lookup_l _ _ _ _ _ H Hi) as (u & Hu & Hcu).
    exists u. split; [|done].
    apply list_elem_of_lookup_2 in Hu.
    unfold planned_units, unplanned_units. rewrite elem_of_app, !list_elem_of_filter.
    destruct (WorkUnit.unplanned u); auto.
Qed.

Lemma filter_none (W : World) (cfs : list CustomField.t) :
  Forall (λ cf, ¬ is_bugzilla_field W cf) cfs → filter (is_bugzilla_field W) cfs = [].
Proof.
  induction 1 as [|cf cfs Hcf _ IH]; [done|].
  rewrite filter_cons. by rewrite decide_False.
Qed.

Lemma last_bugzilla_field (W : World) (pre post : list CustomField.t) (cf : CustomField.t) :
  is_bugzilla_field W cf →
  Forall (λ cf', ¬ is_bugzilla_field W cf') post →
  last (CustomField.value <$> filter (is_bugzilla_field W) (pre ++ cf :: post))
    = Some (CustomField.value cf).
Proof.
  intros Hcf Hpost.
  rewrite filter_app, filter_cons, decide_True, (filter_none W post Hpost) by done.
  rewrite fmap_app. apply last_snoc.
Qed.

(** C5. In the snapshot of a list every card has its unit, and the
    reference of a unit is the value of the last custom field of its card
    whose name is BUGZILLA ignoring case (the upper-case form of the name
    is BUGZILLA), in the order of [c.custom_fields]: with several such
    fields the later one wins, and with none the reference is unset, the
    snapshot being built all the same. A name that differs from BUGZILLA
    by the case of ASCII letters only is such a name, and among pure ASCII
    names no other is. *)
Theorem C5_bugzilla_last_wins
        (W : World) (lists : list WorkList.t) (list_name : string)
        (tlist : WorkList.t) (st : State) :
  get_list W lists list_name = Ok tlist →
  (∀ cf, eq_ignore_case (CustomField.name cf) "BUGZILLA" = true → is_bugzilla_field W cf) ∧
  (∀ cf, isascii (CustomField.name cf) = true → is_bugzilla_field W cf →
         eq_ignore_case (CustomField.name cf) "BUGZILLA" = true) ∧
  ∃ (st' : State) (cards : Cards.t),
    parse_cards_from_list W lists list_name st = (st', Ok cards) ∧
    (∀ c, c ∈ WorkList.list_cards tlist →
          ∃ u, u ∈ Cards.planned cards ++ Cards.unplanned cards ∧ WorkUnit._object u = c) ∧
    (∀ u, u ∈ Cards.planned cards ++ Cards.unplanned cards →
          WorkUnit._object u ∈ WorkList.list_cards tlist ∧
          WorkUnit.bugzilla u =
            last (CustomField.value <$>
                    filter (is_bugzilla_field W)
                           (Card.custom_fields (WorkUnit._object u))) ∧
          (∀ pre cf post,
             Card.custom_fields (WorkUnit._object u) = pre ++ cf :: post →
             is_bugzilla_field W cf →
             Forall (λ cf', ¬ is_bugzilla_field W cf') post →
             WorkUnit.bugzilla u = Some (CustomField.value cf)) ∧
          (Forall (λ cf, ¬ is_bugzilla_field W cf)
                  (Card.custom_fields (WorkUnit._object u)) →
           WorkUnit.bugzilla u = None)).
Proof.
  intros Hget.
  split; [apply is_bugzilla_field_eq_ignore_case|].
  split; [intros cf Ha; by apply is_bugzilla_field_ascii|].
  destruct (parse_cards_from_list_spec W lists list_name tlist st Hget)
    as (st' & units & ids & Hrun & Hunits & _).
  destruct (unit_of_elem _ _ Hunits) as [Hu Hc].
  exists st', (Cards.mk (planned_units units) (unplanned_units units)).
  cbn [Cards.planned Cards.unplanned]. split_and!; [done| |].
  - intros c Hin. destruct (Hc c Hin) as (u & Hin' & Hobj & _). by exists u.
  - intros u Hin. destruct (Hu u Hin) as (_ & c & Hcin & Hobj & _ & Hbz & _).
    subst c. rewrite Hbz, custom_fields_loop_last.
    assert (Hlast : ∀ o : option string,
              match o with Some v => Some v | None => None end = o) by (by intros []).
    rewrite Hlast. split_and!; [done|done| |].
    + intros pre cf post -> Hcf Hpost. by apply last_bugzilla_field.
    + intros Hnone. by rewrite (filter_none W _ Hnone).
Qed.

Lemma C5_bugzilla_last_wins_witness :
  get_list Sample.world Sample.lists "Done" = Ok Sample.done ∧
  get_list Sample.world [Sample.cafe_lower] "CAFÉ" = Ok Sample.cafe_lower ∧
  (∃ (st' : State) (cards : Cards.t),
    parse_cards_from_list Sample.world Sample.lists "Done" (initial_state false)
      = (st', Ok cards) ∧
    (∀ u, u ∈ Cards.planned cards ++ Cards.unplanned cards →
          WorkUnit._object u = Sample.refactor →
          WorkUnit.bugzilla u = Some Sample.url_no_id) ∧
    (∀ u, u ∈ Cards.planned cards ++ Cards.unplanned cards →
          WorkUnit._object u = Sample.write_docs →
          WorkUnit.bugzilla u = None)) ∧
  (∃ (st' : State) (cards : Cards.t),
    parse_cards_from_list Sample.world [Sample.cafe_lower] "CAFÉ" (initial_state false)
      = (st', Ok cards) ∧
    (∀ u, u ∈ Cards.planned cards ++ Cards.unplanned cards →
          WorkUnit.bugzilla u = Some Sample.url_12345)).
Proof.
  split; [reflexivity|]. split; [reflexivity|]. split.
  - destruct (C5_bugzilla_last_wins Sample.world Sample.lists "Done" Sample.done
                (initial_state false) eq_refl) as (_ & _ & st' & cards & Hrun & _ & Hu).
    exists st', cards. split; [exact Hrun|]. split.
    + intros u Hin Hobj. destruct (Hu u Hin) as (_ & Hlast & _).
      rewrite Hlast, Hobj. reflexivity.
    + intros u Hin Hobj. destruct (Hu u Hin) as (_ & Hlast & _).
      rewrite Hlast, Hobj. reflexivity.
  - destruct (C5_bugzilla_last_wins Sample.world [Sample.cafe_lower] "CAFÉ"
                Sample.cafe_lower (initial_state false) eq_refl)
      as (_ & _ & st' & cards & Hrun & _ & Hu).
    exists st', cards. split; [exact Hrun|].
    intros u Hin. destruct (Hu u Hin) as (Hobj & Hlast & _).
    rewrite Hlast. simpl in Hobj. apply list_elem_of_singleton in Hobj.
    rewrite Hobj. reflexivity.
Defined.

(** ** One lookup per member *)

Lemma filter_eq_absent (l : list string) (x : string) :
  x ∉ l → filter (λ m, m = x) l = [].
Proof.
  induction l as [|y l IH]; intros Hx; [done|].
  apply not_elem_of_cons in Hx as [Hne Hx].
  rewrite filter_cons, decide_False by congruence. by apply IH.
Qed.

Lemma NoDup_count_one (l : list string) (x : string) :
  NoDup l → x ∈ l → length (filter (λ m, m = x) l) = 1%nat.
Proof.
  induction 1 as [|y l Hy Hnd IH]; intros Hx; [by apply elem_of_nil in Hx|].
  rewrite filter_cons. apply elem_of_cons in Hx as [->|Hx].
  - rewrite decide_True by done. by rewrite filter_eq_absent.
  - rewrite decide_False by (intros ->; contradiction). by apply IH.
Qed.

Lemma initial_state_cache_inv (include_members : bool) :
  cache_inv (initial_state include_members).
Proof.
  split; [constructor|]. intros mid. simpl. rewrite lookup_empty.
  split; [by intros ?%elem_of_nil|by intros [? ?]].
Qed.




(** ** Claims on the synchronisation pass *)

(** C7. A unit with no bugzilla reference is skipped silently: the loop
    body returns normally and leaves the state as it is (no issue-tracker
    query, no field write, nothing printed), and the pass goes on with the
    next unit, so that the whole pass is the same with or without this
    unit, wherever it stands. *)
Theorem C7_skip_without_reference
        (W : World) (pre post : list WorkUnit.t) (card : WorkUnit.t) (st : State) :
  WorkUnit.bugzilla card = None →
  set_pm_score_body W card st = (st, Ok tt) ∧
  for_each (card :: post) (set_pm_score_body W) st =
    for_each post (set_pm_score_body W) st ∧
  for_each (pre ++ card :: post) (set_pm_score_body W) st =
    for_each (pre ++ post) (set_pm_score_body W) st.
Proof.
  intros H. split_and!.
  - by apply body_no_reference.
  - by apply (pass_skip W [] post card st).
  - by apply pass_skip.
Qed.

Lemma C7_skip_without_reference_witness :
  WorkUnit.bugzilla Sample.unit_write_docs = None ∧
  set_pm_score_body Sample.world Sample.unit_write_docs (initial_state false)
    = (initial_state false, Ok tt) ∧
  for_each [Sample.unit_write_docs; Sample.unit_fix_login]
           (set_pm_score_body Sample.world) (initial_state false) =
  for_each [Sample.unit_fix_login]
           (set_pm_score_body Sample.world) (initial_state false).
Proof.
  split; [reflexivity|].
  destruct (C7_skip_without_reference Sample.world [] [Sample.unit_fix_login]
              Sample.unit_write_docs (initial_state false) eq_refl) as (H1 & H2 & _).
  split; [exact H1|exact H2].
Defined.

(** C8. A reference without an [id] parameter stops the pass where it
    stands. If the units before it were processed normally, leaving the
    state [st1], then the pass over the whole list ends in [st1] with the
    [KeyError] of the missing parameter: whatever follows is not processed
    (the outcome does not depend on it), the error is not caught, and [st1]
    still holds everything the earlier units did, added to what had
    happened before. *)
Theorem C8_malformed_reference_aborts
        (W : World) (pre post : list WorkUnit.t) (card : WorkUnit.t)
        (url : string) (st st1 : State) :
  WorkUnit.bugzilla card = Some url →
  query_id W url = None →
  for_each pre (set_pm_score_body W) st = (st1, Ok tt) →
  for_each (pre ++ card :: post) (set_pm_score_body W) st = (st1, Raise (KeyError "id")) ∧
  ∃ evs, st1 = after st evs ∧
         tracker_calls (trace st1) = tracker_calls (trace st) ++ tracker_calls evs.
Proof.
  intros Hbz Hq Hpre. split.
  - rewrite for_each_app, Hpre. simpl. unfold mbind, M_bind.
    by rewrite (body_malformed W card url st1 Hbz Hq).
  - destruct (pass_extends W pre st) as (evs & r & Hrun).
    rewrite Hpre in Hrun. injection Hrun as -> _.
    exists evs. split; [done|]. simpl. apply tracker_calls_app.
Qed.

Lemma C8_malformed_reference_aborts_witness :
  WorkUnit.bugzilla Sample.unit_refactor = Some Sample.url_no_id ∧
  query_id Sample.world Sample.url_no_id = None ∧
  for_each [Sample.unit_fix_login] (set_pm_score_body Sample.world) (initial_state false)
    = (after (initial_state false)
             (sync_events Sample.world Sample.unit_fix_login "12345" 1200), Ok tt) ∧
  for_each ([Sample.unit_fix_login] ++ Sample.unit_refactor :: [Sample.unit_fix_login])
           (set_pm_score_body Sample.world) (initial_state false)
    = (after (initial_state false)
             (sync_events Sample.world Sample.unit_fix_login "12345" 1200),
       Raise (KeyError "id")).
Proof.
  split; [reflexivity|]. split; [reflexivity|]. split; [reflexivity|].
  apply (C8_malformed_reference_aborts Sample.world [Sample.unit_fix_login]
           [Sample.unit_fix_login] Sample.unit_refactor Sample.url_no_id
           (initial_state false) _ eq_refl eq_refl eq_refl).
Defined.




(** ** Percentages *)

Lemma percentage_whole_zero (part : Z) (f : spec_float) :
  py_float part = Ok f → percentage part 0 = Ok (PyInt 100).
Proof. intros H. unfold percentage. by rewrite H. Qed.

Lemma percentage_overflow (part whole : Z) :
  py_float part = Raise OverflowError ∨ py_float whole = Raise OverflowError →
  percentage part whole = Raise OverflowError.
Proof.
  intros [H|H]; unfold percentage; rewrite H; [done|].
  by destruct (py_float part) as [f|[]] eqn:E; try done;
    unfold py_float in E; destruct (binary_normalize _ _ _ _ _).
Qed.

Lemma percentage_part_zero (whole : Z) (f : spec_float) :
  (0 < whole)%Z → py_float whole = Ok f →
  percentage 0 whole = Ok (PyFloat (S754_zero false)).
Proof.
  intros Hw Hf. unfold percentage.
  change (py_float 0) with (Ok (S754_zero false)). cbv beta iota.
  rewrite Hf.
  destruct (py_float_positive whole Hw) as [(m & e & Hfin)|Hov]; [|congruence].
  rewrite Hfin in Hf. injection Hf as <-. reflexivity.
Qed.

Lemma percentage_same (whole : Z) :
  (0 < whole)%Z → (100 * whole < 2 ^ 53)%Z →
  percentage whole whole = Ok (PyFloat float_100).
Proof.
  intros Hw H100. unfold percentage.
  rewrite py_float_exact by lia. cbv beta iota.
  rewrite mul_100_exact by lia.
  unfold py_float_div. rewrite div_100_exact by lia. reflexivity.
Qed.

Lemma percentage_defined (part whole : Z) :
  (- 2 ^ 53 < part < 2 ^ 53)%Z → (- 2 ^ 53 < whole < 2 ^ 53)%Z →
  ∃ v, percentage part whole = Ok v.
Proof.
  intros Hp Hw. unfold percentage.
  destruct (py_float_small part Hp) as [fp ->].
  destruct (py_float_small whole Hw) as [fw ->]. cbv beta iota.
  destruct (py_float_div _ fw); by eexists.
Qed.

(** C3, as the code has it. [percentage(part, 0) == 100] whenever
    [float(part)] does not overflow; [percentage(0, whole) == 0] for
    [whole > 0] whenever [float(whole)] does not overflow; and
    [percentage(whole, whole) == 100] for [whole > 0] with
    [100 * whole < 2^53], where the product and the quotient are exact.
    When [float(part)] or [float(whole)] overflows, [percentage] raises
    [OverflowError]. *)
Theorem C3_percentage_within_float_range :
  (∀ part f, py_float part = Ok f → percentage_eq part 0 100) ∧
  (∀ whole f, (0 < whole)%Z → py_float whole = Ok f → percentage_eq 0 whole 0) ∧
  (∀ whole, (0 < whole)%Z → (100 * whole < 2 ^ 53)%Z → percentage_eq whole whole 100) ∧
  (∀ part whole,
     py_float part = Raise OverflowError ∨ py_float whole = Raise OverflowError →
     percentage part whole = Raise OverflowError).
Proof.
  split_and!.
  - intros part f H. exists (PyInt 100). split; [by eapply percentage_whole_zero|done].
  - intros whole f Hw H. exists (PyFloat (S754_zero false)).
    split; [by eapply percentage_part_zero|done].
  - intros whole Hw H. exists (PyFloat float_100).
    split; [by apply percentage_same|done].
  - apply percentage_overflow.
Qed.

Lemma C3_percentage_within_float_range_witness :
  py_float 5 = Ok (S754_finite false 5629499534213120 (-50)) ∧
  percentage_eq 5 0 100 ∧ percentage_eq 0 5 0 ∧ percentage_eq 5 5 100.
Proof.
  destruct C3_percentage_within_float_range as (H1 & H2 & H3 & _).
  split; [reflexivity|]. split_and!.
  - apply (H1 5%Z _ eq_refl).
  - apply (H2 5%Z _ eq_refl eq_refl).
  - apply (H3 5%Z); reflexivity.
Defined.

(** C3 as stated fails for large integers: [float(10**400)] overflows, so
    [percentage(10**400, 0)] raises [OverflowError] instead of returning
    100; and at [whole = 360287970189641] the product [100 * float(whole)]
    is rounded, and [percentage(whole, whole)] is the float just below
    100. *)
Lemma C3_counterexample :
  percentage (10 ^ 400) 0 = Raise OverflowError ∧
  ¬ percentage_eq (10 ^ 400) 0 100 ∧
  percentage 360287970189641 360287970189641
    = Ok (PyFloat (S754_finite false 7036874417766399 (-46))) ∧
  ¬ percentage_eq 360287970189641 360287970189641 100.
Proof.
  assert (H1 : percentage (10 ^ 400) 0 = Raise OverflowError)
    by (vm_compute; reflexivity).
  assert (H2 : percentage 360287970189641 360287970189641
               = Ok (PyFloat (S754_finite false 7036874417766399 (-46))))
    by (vm_compute; reflexivity).
  split; [exact H1|]. split; [|split; [exact H2|]].
  - intros (v & Hv & _). rewrite H1 in Hv. discriminate Hv.
  - intros (v & Hv & Heq). rewrite H2 in Hv. injection Hv as <-.
    vm_compute in Heq. discriminate Heq.
Qed.

(** ** The aggregates of the report *)

Lemma printed_Print (lines : list (list Printed)) : printed (Print <$> lines) = lines.
Proof. induction lines as [|x l IH]; csimpl; by rewrite ?IH. Qed.

Lemma len_nonneg {A} (l : list A) : (0 ≤ len l)%Z.
Proof. unfold len. lia. Qed.

(** C2. When the four lists of the report exist (and hold fewer than
    [2^53] cards, so that the counts convert to floats), [print_report]
    returns normally and the four summary lines it prints carry:
    [units_planned], the number of planned cards over "Sprint Backlog",
    "Doing", "In Review" and "Done"; [units_unplanned], the same sum for
    unplanned cards; [units_planned_done] and [units_unplanned_done], the
    numbers of planned and unplanned cards of "Done"; and with them the
    values of [percentage(units_planned_done, units_planned)] and
    [percentage(units_unplanned_done, units_unplanned)]. *)
Theorem C2_report_aggregates
        (W : World) (lists : list WorkList.t) (st : State)
        (sb doing ir done : WorkList.t) :
  get_list W lists "Sprint Backlog" = Ok sb →
  get_list W lists "Doing" = Ok doing →
  get_list W lists "In Review" = Ok ir →
  get_list W lists "Done" = Ok done →
  let units_planned_done := len (planned_cards done) in
  let units_unplanned_done := len (unplanned_cards done) in
  let units_planned :=
    (len (planned_cards sb) + len (planned_cards doing) +
     len (planned_cards ir) + units_planned_done)%Z in
  let units_unplanned :=
    (len (unplanned_cards sb) + len (unplanned_cards doing) +
     len (unplanned_cards ir) + units_unplanned_done)%Z in
  (units_planned < 2 ^ 53)%Z →
  (units_unplanned < 2 ^ 53)%Z →
  ∃ (st' : State) (p q : PyVal) (rest : list (list Printed)),
    print_report W lists st = (st', Ok tt) ∧
    percentage units_planned_done units_planned = Ok p ∧
    percentage units_unplanned_done units_unplanned = Ok q ∧
    printed (trace st') =
      printed (trace st) ++
      summary_lines units_planned units_unplanned
                    units_planned_done units_unplanned_done p q ++
      rest.
Proof.
  intros Hsb Hdoing Hir Hdone upd uud up uu Hup Huu.
  pose proof (len_nonneg (planned_cards sb)). pose proof (len_nonneg (planned_cards doing)).
  pose proof (len_nonneg (planned_cards ir)). pose proof (len_nonneg (planned_cards done)).
  pose proof (len_nonneg (unplanned_cards sb)). pose proof (len_nonneg (unplanned_cards doing)).
  pose proof (len_nonneg (unplanned_cards ir)). pose proof (len_nonneg (unplanned_cards done)).
  destruct (percentage_defined upd up) as [p Hp]; [unfold upd, up in *; lia..|].
  destruct (percentage_defined uud uu) as [q Hq]; [unfold uud, uu in *; lia..|].
  destruct (print_report_spec W lists st sb doing ir done p q Hsb Hdoing Hir Hdone Hp Hq)
    as (stp & u1 & u2 & u3 & u4 & ids & _ & _ & _ & _ & _ & Htr & _ & Hrun).
  eexists _, p, q, _. split; [exact Hrun|]. split; [exact Hp|]. split; [exact Hq|].
  cbn [after trace]. rewrite Htr, !printed_app, printed_MemberFetch, printed_Print.
  rewrite app_nil_r. reflexivity.
Qed.

Lemma C2_report_aggregates_witness :
  get_list Sample.world Sample.lists "Sprint Backlog" = Ok Sample.sprint_backlog ∧
  get_list Sample.world Sample.lists "Doing" = Ok Sample.doing ∧
  get_list Sample.world Sample.lists "In Review" = Ok Sample.in_review ∧
  get_list Sample.world Sample.lists "Done" = Ok Sample.done ∧
  ∃ (st' : State) (p q : PyVal) (rest : list (list Printed)),
    print_report Sample.world Sample.lists (initial_state false) = (st', Ok tt) ∧
    percentage 1 2 = Ok p ∧
    percentage 1 2 = Ok q ∧
    printed (trace st') = summary_lines 2 2 1 1 p q ++ rest.
Proof.
  split; [reflexivity|]. split; [reflexivity|]. split; [reflexivity|].
  split; [reflexivity|].
  apply (C2_report_aggregates Sample.world Sample.lists (initial_state false)
           Sample.sprint_backlog Sample.doing Sample.in_review Sample.done
           eq_refl eq_refl eq_refl eq_refl); reflexivity.
Defined.

(* ===================================================================== *)
(** * Further properties of the program *)
(* ===================================================================== *)

(** ** What a computation may do *)

Lemma fetched_no_fetch (evs : list Event) :
  Forall (λ e, ¬ is_fetch e) evs → fetched evs = [].
Proof.
  induction 1 as [|e evs He _ IH]; [done|].
  destruct e; simpl in *; done.
Qed.

Lemma emits_ret {A} (P : Event → Prop) (a : A) : emits P (mret a).
Proof.
  intros st st' r [= <- <-]. split_and!; try done.
  exists []. by rewrite app_nil_r.
Qed.

Lemma emits_raise {A} (P : Event → Prop) (e : Exn) : emits P (raise (A := A) e).
Proof.
  intros st st' r [= <- <-]. split_and!; try done.
  exists []. by rewrite app_nil_r.
Qed.

Lemma emits_lift {A} (P : Event → Prop) (x : Result A) : emits P (lift x).
Proof.
  intros st st' r [= <- <-]. split_and!; try done.
  exists []. by rewrite app_nil_r.
Qed.

Lemma emits_get_state (P : Event → Prop) : emits P get_state.
Proof.
  intros st st' r [= <- <-]. split_and!; try done.
  exists []. by rewrite app_nil_r.
Qed.

Lemma emits_emit (P : Event → Prop) (e : Event) :
  P e → ¬ is_fetch e → emits P (emit e).
Proof.
  intros HP Hnf st st' r [= <- <-]. simpl.
  assert (Hf : fetched (trace st ++ [e]) = fetched (trace st)).
  { rewrite fetched_app, (fetched_no_fetch [e]), app_nil_r by (by constructor). done. }
  split_and!; try done.
  - unfold cache_inv. simpl. by rewrite Hf.
  - exists [e]. split; [done|]. by constructor.
Qed.

Lemma emits_bind {A B} (P : Event → Prop) (m : M A) (k : A → M B) :
  emits P m → (∀ a, emits P (k a)) → emits P (m ≫= k).
Proof.
  intros Hm Hk st st' r Hrun. unfold mbind, M_bind in Hrun.
  destruct (m st) as [st1 [a|e]] eqn:E.
  - destruct (Hm _ _ _ E) as (Hi1 & Hs1 & Hv1 & Ho1 & evs1 & Ht1 & Hp1).
    destruct (Hk a _ _ _ Hrun) as (Hi2 & Hs2 & Hv2 & Ho2 & evs2 & Ht2 & Hp2).
    split_and!.
    + congruence.
    + by etrans.
    + auto.
    + intros Hoff. destruct (Ho1 Hoff) as [Hc1 Hf1].
      destruct Ho2 as [Hc2 Hf2]; [congruence|]. split; congruence.
    + exists (evs1 ++ evs2). split; [|by apply Forall_app].
      by rewrite Ht2, Ht1, app_assoc.
  - injection Hrun as <- <-. exact (Hm _ _ _ E).
Qed.

Lemma emits_mono {A} (P Q : Event → Prop) (m : M A) :
  (∀ e, P e → Q e) → emits P m → emits Q m.
Proof.
  intros HPQ Hm st st' r Hrun.
  destruct (Hm _ _ _ Hrun) as (Hi & Hs & Hv & Ho & evs & Ht & Hp).
  split_and!; try done. exists evs. split; [done|].
  eapply Forall_impl; [exact Hp|exact HPQ].
Qed.

Lemma emits_for_each {A} (P : Event → Prop) (body : A → M unit) (l : list A) :
  (∀ x, x ∈ l → emits P (body x)) → emits P (for_each l body).
Proof.
  induction l as [|x l IH]; intros Hbody; simpl.
  - apply emits_ret.
  - apply emits_bind; [apply Hbody; left|].
    intros _. apply IH. intros y Hy. apply Hbody. by right.
Qed.

Lemma emits_bind_post {A B} (P : Event → Prop) (Q : A → Prop) (m : M A) (k : A → M B) :
  (∀ st st' a, m st = (st', Ok a) → Q a) →
  emits P m → (∀ a, Q a → emits P (k a)) → emits P (m ≫= k).
Proof.
  intros HQ Hm Hk st st' r Hrun. unfold mbind, M_bind in Hrun.
  destruct (m st) as [st1 [a|e]] eqn:E.
  - destruct (Hm _ _ _ E) as (Hi1 & Hs1 & Hv1 & Ho1 & evs1 & Ht1 & Hp1).
    destruct (Hk a (HQ _ _ _ E) _ _ _ Hrun) as (Hi2 & Hs2 & Hv2 & Ho2 & evs2 & Ht2 & Hp2).
    split_and!.
    + congruence.
    + by etrans.
    + auto.
    + intros Hoff. destruct (Ho1 Hoff) as [Hc1 Hf1].
      destruct Ho2 as [Hc2 Hf2]; [congruence|]. split; congruence.
    + exists (evs1 ++ evs2). split; [|by apply Forall_app].
      by rewrite Ht2, Ht1, app_assoc.
  - injection Hrun as <- <-. exact (Hm _ _ _ E).
Qed.

Ltac emits_step :=
  first
    [ apply emits_ret
    | apply emits_raise
    | apply emits_lift
    | apply emits_get_state
    | apply emits_emit; [simpl; tauto | simpl; tauto]
    | apply emits_bind; [|intros ?] ].

Section Effects.
Context (W : World).

Lemma emits_list_members_from_card (card : Card.t) :
  emits is_fetch (list_members_from_card W card).
Proof.
  intros st st' r Hrun.
  destruct (list_members_from_card_spec W card st)
    as (st1 & names & Hrun1 & Hinc & Hsub & Hoff & Hon & ids & Htr & _).
  pose proof (list_members_from_card_inv W card st st' _ Hrun) as Hinv.
  rewrite Hrun in Hrun1. injection Hrun1 as <- ->.
  split_and!; try done.
  - intros Hi. by destruct (Hoff Hi) as [-> _].
  - exists (MemberFetch <$> ids). split; [done|].
    apply Forall_fmap, Forall_forall. by intros mid _.
Qed.

Lemma emits_cards_loop (cs : list Card.t) :
  ∀ cards, emits is_fetch (cards_loop W cs cards).
Proof.
  induction cs as [|c cs IH]; intros cards; simpl.
  - apply emits_ret.
  - apply emits_bind; [apply emits_list_members_from_card|]. intros members. apply IH.
Qed.

Lemma emits_parse_cards_from_list (lists : list WorkList.t) (list_name : string) :
  emits is_fetch (parse_cards_from_list W lists list_name).
Proof.
  unfold parse_cards_from_list. apply emits_bind; [apply emits_lift|].
  intros tlist. apply emits_cards_loop.
Qed.

Lemma emits_print_card (b : bool) (card : WorkUnit.t) :
  emits is_print (print_card b card).
Proof.
  unfold print_card, print. repeat emits_step.
  destruct (_INCLUDE_MEMBERS _); emits_step.
Qed.

Lemma emits_print_report (lists : list WorkList.t) :
  emits is_report_event (print_report W lists).
Proof.
  assert (Hparse : ∀ n, emits is_report_event (parse_cards_from_list W lists n)).
  { intros n. eapply emits_mono; [|apply emits_parse_cards_from_list]. by left. }
  assert (Hcards : ∀ b l, emits is_report_event (for_each l (print_card b))).
  { intros b l. apply emits_for_each. intros u _.
    eapply emits_mono; [|apply emits_print_card]. by right. }
  unfold print_report, print.
  do 4 (apply emits_bind; [apply Hparse|intros ?]).
  repeat first [apply Hcards | apply emits_emit; [right; exact I|intros []]
               | apply emits_lift | apply emits_bind; [|intros ?]].
Qed.

Lemma emits_set_pm_score_body (units : list WorkUnit.t) (card : WorkUnit.t) :
  card ∈ units → emits (is_sync_event units) (set_pm_score_body W card).
Proof.
  intros Hin. unfold set_pm_score_body, print.
  destruct (WorkUnit.bugzilla card) as [url|]; [|apply emits_ret].
  destruct (query_id W url) as [bug_id|]; [|apply emits_raise].
  apply emits_bind; [apply emits_emit; [exact I|intros []]|intros _].
  apply emits_bind; [apply emits_emit; [exact I|intros []]|intros _].
  apply emits_bind; [apply emits_lift|intros _].
  apply emits_bind; [apply emits_lift|intros n].
  apply emits_emit; [|intros []]. simpl. split; [done|]. by exists card.
Qed.

Lemma emits_set_pm_score (lists : list WorkList.t) :
  emits (is_backlog_sync_event W lists) (set_pm_score W lists).
Proof.
  unfold set_pm_score.
  apply (emits_bind_post _
           (λ cards, ∀ u, u ∈ Cards.planned cards ++ Cards.unplanned cards →
                          ∃ tl, get_list W lists "Backlog" = Ok tl ∧
                                WorkUnit._object u ∈ WorkList.list_cards tl)).
  - intros st st' cards Hrun u Hu.
    destruct (get_list W lists "Backlog") as [tl|e] eqn:Hget.
    + destruct (parse_cards_from_list_spec W lists _ tl st Hget)
        as (st1 & units & ids & Hrun1 & Hunits & _).
      rewrite Hrun in Hrun1. injection Hrun1 as _ ->.
      destruct (unit_of_elem _ _ Hunits) as [Helem _].
      destruct (Helem u Hu) as (_ & c & Hc & Hobj & _).
      exists tl. split; [done|]. by rewrite Hobj.
    + rewrite (parse_cards_from_list_raise W lists _ e st Hget) in Hrun. discriminate.
  - eapply emits_mono; [|apply emits_parse_cards_from_list]. by intros [].
  - intros cards Hcards.
    apply emits_bind.
    { destruct (logged_in W); [apply emits_ret|apply emits_emit; [exact I|intros []]]. }
    intros _. apply emits_for_each. intros u Hu.
    eapply emits_mono; [|apply (emits_set_pm_score_body _ u Hu)].
    intros [] He; simpl in *; try done.
    destruct He as [-> (u' & Hu' & <-)]. split; [done|]. by apply Hcards.
Qed.
End Effects.

(** ** Further properties: lookups *)

(** X1. When several lists have the requested name ignoring case,
    [get_list] returns the first of them in the order of the board; the
    lists after it play no part. *)
Theorem X1_get_list_first_match
        (W : World) (pre post : list WorkList.t) (l : WorkList.t) (name : string) :
  equal_ignoring_case W (WorkList.name l) name →
  Forall (λ l', ¬ equal_ignoring_case W (WorkList.name l') name) pre →
  get_list W (pre ++ l :: post) name = Ok l.
Proof. intros Hl Hpre. apply get_list_Ok. by exists pre, post. Qed.

Lemma X1_get_list_first_match_witness :
  equal_ignoring_case Sample.world (WorkList.name Sample.cafe_upper) "café" ∧
  Forall (λ l', ¬ equal_ignoring_case Sample.world (WorkList.name l') "café")
         [Sample.sprint_backlog] ∧
  get_list Sample.world
           ([Sample.sprint_backlog] ++ Sample.cafe_upper :: [Sample.cafe_lower; Sample.done])
           "café" = Ok Sample.cafe_upper.
Proof.
  assert (Hpre : Forall (λ l', ¬ equal_ignoring_case Sample.world (WorkList.name l') "café")
                        [Sample.sprint_backlog])
    by (repeat constructor; intros H; vm_compute in H; discriminate H).
  split; [reflexivity|]. split; [exact Hpre|].
  apply (X1_get_list_first_match Sample.world [Sample.sprint_backlog]
           [Sample.cafe_lower; Sample.done] Sample.cafe_upper "café" eq_refl Hpre).
Defined.

(** X2. The outcome of [get_list] does not depend on the case of the
    request: two requests that are equal ignoring case find the same list,
    or fail with the same error. This holds in particular for two requests
    that differ by the case of ASCII letters only. *)
Theorem X2_get_list_request_case
        (W : World) (lists : list WorkList.t) (name1 name2 : string) :
  equal_ignoring_case W name1 name2 ∨ eq_ignore_case name1 name2 = true →
  get_list W lists name1 = get_list W lists name2.
Proof.
  intros H.
  assert (Heq : equal_ignoring_case W name1 name2).
  { destruct H as [H|H]; [done|by apply eq_ignore_case_equal]. }
  unfold get_list. by rewrite Heq.
Qed.

Lemma X2_get_list_request_case_witness :
  equal_ignoring_case Sample.world "CAFÉ" "café" ∧
  get_list Sample.world [Sample.sprint_backlog; Sample.cafe_lower] "CAFÉ" =
    get_list Sample.world [Sample.sprint_backlog; Sample.cafe_lower] "café" ∧
  get_list Sample.world [Sample.sprint_backlog; Sample.cafe_lower] "café"
    = Ok Sample.cafe_lower.
Proof.
  assert (H : equal_ignoring_case Sample.world "CAFÉ" "café") by reflexivity.
  split; [exact H|]. split; [|reflexivity].
  apply (X2_get_list_request_case Sample.world [Sample.sprint_backlog; Sample.cafe_lower]
           "CAFÉ" "café" (or_introl H)).
Defined.

(** ** Further properties: what the commands do and never do *)

Lemma tracker_calls_report (evs : list Event) :
  Forall is_report_event evs → tracker_calls evs = [].
Proof.
  induction 1 as [|e evs He _ IH]; [done|].
  destruct e; simpl in *; try done; by destruct He.
Qed.

Lemma emits_run {A} (P : Event → Prop) (m : M A) (st : State) :
  emits P m →
  _INCLUDE_MEMBERS (m st).1 = _INCLUDE_MEMBERS st ∧
  MEMBERS_CACHE st ⊆ MEMBERS_CACHE (m st).1 ∧
  (cache_inv st → cache_inv (m st).1) ∧
  (_INCLUDE_MEMBERS st = false →
   MEMBERS_CACHE (m st).1 = MEMBERS_CACHE st ∧
   fetched (trace (m st).1) = fetched (trace st)) ∧
  ∃ evs, trace (m st).1 = trace st ++ evs ∧ Forall P evs.
Proof. intros Hm. destruct (m st) as [st' r] eqn:E. exact (Hm _ _ _ E). Qed.

Section Commands.
Context (W : World).

Lemma emits_main_other (board : string) (command : option string) :
  command ≠ Some "pm-score" →
  emits is_report_event (main W board command).
Proof.
  intros Hcmd. unfold main, print.
  destruct command as [cmd|].
  - destruct (get_board W board) as [b|].
    + destruct (String.eqb_spec cmd "report") as [->|Hr]; [apply emits_print_report|].
      destruct (String.eqb_spec cmd "pm-score") as [->|Hp]; [done|].
      apply emits_bind; [apply emits_emit; [right; exact I|intros []]|intros _].
      apply emits_raise.
    + apply emits_emit; [right; exact I|intros []].
  - apply emits_bind; [apply emits_emit; [right; exact I|intros []]|intros _].
    apply emits_raise.
Qed.

Lemma emits_main (board : string) (command : option string) :
  emits (λ _, True) (main W board command).
Proof.
  destruct (decide (command = Some "pm-score")) as [->|Hne].
  - unfold main. destruct (get_board W board) as [b|].
    + simpl. eapply emits_mono; [|apply emits_set_pm_score]. done.
    + apply emits_emit; [done|intros []].
  - eapply emits_mono; [|by apply emits_main_other]. done.
Qed.
End Commands.

(** X4. The report only reads: whatever its outcome, all that
    [print_report] does is looking up members and printing. It makes no
    call to the issue tracker, no login and no write to a custom field, and
    it keeps the names already cached. *)
Theorem X4_report_is_read_only (W : World) (lists : list WorkList.t) (st : State) :
  let st' := (print_report W lists st).1 in
  (∃ evs, trace st' = trace st ++ evs ∧ Forall is_report_event evs) ∧
  tracker_calls (trace st') = tracker_calls (trace st) ∧
  MEMBERS_CACHE st ⊆ MEMBERS_CACHE st' ∧
  _INCLUDE_MEMBERS st' = _INCLUDE_MEMBERS st.
Proof.
  destruct (emits_run _ _ st (emits_print_report W lists))
    as (Hinc & Hsub & _ & _ & evs & Htr & Hevs).
  cbv zeta. split_and!; try done.
  - by exists evs.
  - by rewrite Htr, tracker_calls_app, (tracker_calls_report evs Hevs), app_nil_r.
Qed.

(** X5. Without [--include-members] no command ever resolves a member: in
    a state where [_INCLUDE_MEMBERS] is off, [main] leaves the cache as it
    is and makes no member lookup, whatever the board, the command and the
    outcome. *)
Theorem X5_no_members_no_lookups
        (W : World) (board : string) (command : option string) (st : State) :
  _INCLUDE_MEMBERS st = false →
  let st' := (main W board command st).1 in
  MEMBERS_CACHE st' = MEMBERS_CACHE st ∧
  fetched (trace st') = fetched (trace st) ∧
  ∀ mid, lookups mid (trace st') = lookups mid (trace st).
Proof.
  intros Hoff.
  destruct (emits_run _ _ st (emits_main W board command)) as (_ & _ & _ & Ho & _).
  destruct (Ho Hoff) as [Hc Hf]. cbv zeta. split_and!; try done.
  intros mid. unfold lookups. by rewrite Hf.
Qed.

Lemma X5_no_members_no_lookups_witness :
  _INCLUDE_MEMBERS (initial_state false) = false ∧
  fetched (trace (main Sample.world "Team" (Some "report") (initial_state false)).1) = [].
Proof.
  split; [reflexivity|].
  apply (X5_no_members_no_lookups Sample.world "Team" (Some "report")
           (initial_state false) eq_refl).
Defined.

Lemma lookups_le_one (l : list Event) (mid : string) :
  NoDup (fetched l) → (lookups mid l ≤ 1)%nat.
Proof.
  intros Hnd. unfold lookups.
  destruct (decide (mid ∈ fetched l)) as [Hin|Hnin].
  - by rewrite NoDup_count_one.
  - rewrite filter_eq_absent by done. simpl. lia.
Qed.

(** X6. In a whole run, from the start of the process to the end of
    [main], no member is looked up twice, whatever the board, the command
    and the outcome: the ids looked up are pairwise distinct, and they are
    exactly the ids the cache holds at the end. *)
Theorem X6_run_looks_up_each_member_once
        (W : World) (board : string) (command : option string) (include_members : bool) :
  let st' := (main W board command (initial_state include_members)).1 in
  NoDup (fetched (trace st')) ∧
  (∀ mid, (lookups mid (trace st') ≤ 1)%nat) ∧
  (∀ mid, mid ∈ fetched (trace st') ↔ is_Some (MEMBERS_CACHE st' !! mid)).
Proof.
  destruct (emits_run _ _ (initial_state include_members) (emits_main W board command))
    as (_ & _ & Hinv & _).
  destruct (Hinv (initial_state_cache_inv include_members)) as [Hnd Hiff].
  cbv zeta. split_and!; try done.
  intros mid. by apply lookups_le_one.
Qed.

(** X16. Only the command [pm-score] touches the issue tracker or the
    cards: under any other command, known or not, [main] does nothing but
    look up members and print. *)
Theorem X16_only_pm_score_writes
        (W : World) (board : string) (command : option string) (st : State) :
  command ≠ Some "pm-score" →
  let st' := (main W board command st).1 in
  (∃ evs, trace st' = trace st ++ evs ∧ Forall is_report_event evs) ∧
  tracker_calls (trace st') = tracker_calls (trace st).
Proof.
  intros Hcmd.
  destruct (emits_run _ _ st (emits_main_other W board command Hcmd))
    as (_ & _ & _ & _ & evs & Htr & Hevs).
  cbv zeta. split; [by exists evs|].
  by rewrite Htr, tracker_calls_app, (tracker_calls_report evs Hevs), app_nil_r.
Qed.

Lemma X16_only_pm_score_writes_witness :
  Some "report" ≠ Some "pm-score" ∧
  tracker_calls (trace (main Sample.world "Team" (Some "report") (initial_state true)).1) = [].
Proof.
  assert (Hne : Some "report" ≠ Some "pm-score") by discriminate.
  split; [exact Hne|].
  apply (X16_only_pm_score_writes Sample.world "Team" (Some "report")
           (initial_state true) Hne).
Defined.

(** ** Further properties: the synchronisation *)

(** X8. Whatever its outcome, the only writes of [set_pm_score] are to the
    custom field PM_SCORE of cards of the list found under "Backlog": no
    other field and no card of another list is ever written. *)
Theorem X8_sync_writes_only_pm_score_of_backlog
        (W : World) (lists : list WorkList.t) (st : State) :
  let st' := (set_pm_score W lists st).1 in
  ∃ evs, trace st' = trace st ++ evs ∧
         Forall (is_backlog_sync_event W lists) evs ∧
         ∀ c f v, SetCustomField c f v ∈ evs →
                  f = "PM_SCORE" ∧
                  ∃ tl, get_list W lists "Backlog" = Ok tl ∧ c ∈ WorkList.list_cards tl.
Proof.
  destruct (emits_run _ _ st (emits_set_pm_score W lists)) as (_ & _ & _ & _ & evs & Htr & Hevs).
  cbv zeta. exists evs. split_and!; try done.
  intros c f v Hin. rewrite Forall_forall in Hevs. exact (Hevs _ Hin).
Qed.

Section Pass.
Context (W : World).

Lemma body_unit_events (u : WorkUnit.t) (st : State) (evs : list Event) :
  unit_events W u = Some evs →
  set_pm_score_body W u st = (after st evs, Ok tt).
Proof.
  unfold unit_events. intros H.
  destruct (WorkUnit.bugzilla u) as [url|] eqn:H1.
  - destruct (query_id W url) as [bug_id|] eqn:H2; [|done].
    destruct (custom_field_by_name W (WorkUnit._object u) FIELD_PM_SCORE)
      as [[]|e'] eqn:Hf; [|done].
    destruct (py_int W (cf_pm_score W bug_id)) as [n|e] eqn:H3; [|done].
    injection H as <-. by eapply body_synchronised.
  - injection H as <-. rewrite after_nil. by apply body_no_reference.
Qed.

Lemma body_unit_events_none (u : WorkUnit.t) (st : State) :
  unit_events W u = None →
  ∃ st' e, set_pm_score_body W u st = (st', Raise e).
Proof.
  unfold unit_events. intros H.
  destruct (WorkUnit.bugzilla u) as [url|] eqn:H1; [|done].
  destruct (query_id W url) as [bug_id|] eqn:H2.
  - destruct (custom_field_by_name W (WorkUnit._object u) FIELD_PM_SCORE)
      as [[]|e'] eqn:Hf.
    + destruct (py_int W (cf_pm_score W bug_id)) as [n|e] eqn:H3; [done|].
      eexists _, e. by eapply body_score_error.
    + eexists _, e'. by eapply body_field_error.
  - eexists _, _. by eapply body_malformed.
Qed.

Lemma pass_success (units : list WorkUnit.t) :
  ∀ st, Forall (λ u, is_Some (unit_events W u)) units →
        for_each units (set_pm_score_body W) st =
          (after st (concat (events_of W <$> units)), Ok tt).
Proof.
  induction units as [|u units IH]; intros st Hall.
  - simpl. by rewrite after_nil.
  - inversion Hall as [|? ? [evs Hu] Hrest]; subst.
    simpl. unfold mbind, M_bind. rewrite (body_unit_events u st evs Hu).
    rewrite IH by done. rewrite after_after. unfold events_of at 2. by rewrite Hu.
Qed.

Lemma pass_ok_inv (units : list WorkUnit.t) :
  ∀ st st', for_each units (set_pm_score_body W) st = (st', Ok tt) →
            Forall (λ u, is_Some (unit_events W u)) units.
Proof.
  induction units as [|u units IH]; intros st st' Hrun; [constructor|].
  simpl in Hrun. unfold mbind, M_bind in Hrun.
  destruct (unit_events W u) as [evs|] eqn:Hu.
  - rewrite (body_unit_events u st evs Hu) in Hrun.
    constructor; [by rewrite Hu|]. by eapply IH.
  - destruct (body_unit_events_none u st Hu) as (st1 & e & Hb).
    rewrite Hb in Hrun. discriminate.
Qed.

Lemma unit_events_card (c : Card.t) (u : WorkUnit.t) :
  unit_of W c u → unit_events W u = card_events W c.
Proof.
  intros (Hobj & _ & Hbz & Hname). unfold card_events, unit_events. simpl.
  rewrite Hbz, Hobj. destruct (custom_fields_loop _ _ _) as [url|]; [|done].
  destruct (query_id W url) as [bug_id|]; [|done].
  destruct (custom_field_by_name _ _ _) as [[]|]; [|done].
  destruct (py_int _ _) as [n|]; [|done].
  unfold sync_events, score_line. cbn [WorkUnit._object WorkUnit.name].
  by rewrite Hname, Hobj.
Qed.
End Pass.

Lemma unit_of_filter {W : World} (b : bool) (cs : list Card.t) (units : list WorkUnit.t) :
  Forall2 (unit_of W) cs units →
  Forall2 (unit_of W) (filter (λ c, is_card_unplanned c = b) cs)
                  (filter (λ u, WorkUnit.unplanned u = b) units).
Proof.
  induction 1 as [|c u cs units Hcu _ IH]; [constructor|].
  rewrite !filter_cons. destruct Hcu as (Hobj & Hun & Hrest).
  rewrite Hun. repeat case_decide; try done.
  constructor; [|done]. exact (conj Hobj (conj Hun Hrest)).
Qed.

Lemma events_of_units (W : World) (cs : list Card.t) (units : list WorkUnit.t) :
  Forall2 (unit_of W) cs units →
  events_of W <$> units = card_events_of W <$> cs.
Proof.
  induction 1 as [|c u cs units Hcu _ IH]; [done|].
  csimpl. rewrite IH. f_equal. unfold events_of, card_events_of.
  by rewrite (unit_events_card W c u Hcu).
Qed.

(** X9. The pass of [set_pm_score] over a sequence of units returns
    normally exactly when every unit either has no reference or has a
    reference with an [id], a card whose PM_SCORE field the board library
    finds, and a score [int] converts; the pass has then done, unit after
    unit in the order of the sequence, the query, the report and the write
    of each unit with a reference, and nothing else. *)
Theorem X9_pass_succeeds_iff_all_units_synchronisable
        (W : World) (units : list WorkUnit.t) (st : State) :
  ((∃ st', for_each units (set_pm_score_body W) st = (st', Ok tt)) ↔
   Forall (λ u, is_Some (unit_events W u)) units) ∧
  (Forall (λ u, is_Some (unit_events W u)) units →
   for_each units (set_pm_score_body W) st =
     (after st (concat (events_of W <$> units)), Ok tt)).
Proof.
  split; [split|].
  - intros [st' Hrun]. by eapply pass_ok_inv.
  - intros Hall. eexists. by apply pass_success.
  - apply pass_success.
Qed.

Lemma X9_pass_succeeds_iff_all_units_synchronisable_witness :
  Forall (λ u, is_Some (unit_events Sample.world u))
         [Sample.unit_write_docs; Sample.unit_fix_login] ∧
  for_each [Sample.unit_write_docs; Sample.unit_fix_login]
           (set_pm_score_body Sample.world) (initial_state false) =
    (after (initial_state false)
           (sync_events Sample.world Sample.unit_fix_login "12345" 1200), Ok tt).
Proof.
  assert (Hall : Forall (λ u, is_Some (unit_events Sample.world u))
                        [Sample.unit_write_docs; Sample.unit_fix_login])
    by (repeat constructor; by eexists).
  split; [exact Hall|].
  destruct (X9_pass_succeeds_iff_all_units_synchronisable Sample.world
              [Sample.unit_write_docs; Sample.unit_fix_login] (initial_state false))
    as [_ H].
  exact (H Hall).
Defined.

Lemma units_synchronisable (W : World) (cs : list Card.t) (units : list WorkUnit.t) :
  Forall2 (unit_of W) cs units →
  Forall (λ c, is_Some (card_events W c)) cs →
  Forall (λ u, is_Some (unit_events W u)) units.
Proof.
  induction 1 as [|c u cs units Hcu _ IH]; intros Hall; [constructor|].
  inversion Hall; subst. constructor; [|by apply IH].
  by rewrite (unit_events_card W c u Hcu).
Qed.

Lemma Forall_filter_keep {A} (P Q : A → Prop) `{∀ x, Decision (Q x)} (l : list A) :
  Forall P l → Forall P (filter Q l).
Proof.
  induction 1 as [|x l Hx _ IH]; [constructor|].
  rewrite filter_cons. case_decide; [by constructor|done].
Qed.

(** X10. When the list "Backlog" exists and every card of it can be
    synchronised (no reference, or a reference with an [id], a PM_SCORE
    field that the board library finds and a score [int] converts),
    [set_pm_score] returns normally, and after building
    the snapshot it has done this and nothing else: the login, if the
    tracker session was not logged in; then the synchronisation of the
    planned cards, in card order; then that of the unplanned cards, in card
    order. So a planned card is always synchronised before an unplanned
    one, whatever their order in the list. *)
Theorem X10_sync_planned_cards_first
        (W : World) (lists : list WorkList.t) (backlog : WorkList.t) (st : State) :
  get_list W lists "Backlog" = Ok backlog →
  Forall (λ c, is_Some (card_events W c)) (WorkList.list_cards backlog) →
  ∃ (stp : State) (ids : list string),
    trace stp = trace st ++ (MemberFetch <$> ids) ∧
    set_pm_score W lists st =
      (after stp (login_events W ++
                  concat (card_events_of W <$> planned_cards backlog) ++
                  concat (card_events_of W <$> unplanned_cards backlog)), Ok tt).
Proof.
  intros Hget Hall.
  destruct (set_pm_score_spec W lists backlog st Hget)
    as (stp & units & ids & Hunits & _ & Htr & Hrun).
  exists stp, ids. split; [done|]. rewrite Hrun.
  pose proof (units_synchronisable W _ _ Hunits Hall) as Hu.
  rewrite pass_success.
  - rewrite after_after. unfold login_events. do 3 f_equal.
    rewrite fmap_app, concat_app. unfold planned_units, unplanned_units.
    rewrite (events_of_units W _ _ (unit_of_filter false _ _ Hunits)).
    rewrite (events_of_units W _ _ (unit_of_filter true _ _ Hunits)). done.
  - apply Forall_app. split; by apply Forall_filter_keep.
Qed.

Lemma X10_sync_planned_cards_first_witness :
  get_list Sample2.world_logged_out Sample2.lists "Backlog" = Ok Sample2.backlog ∧
  Forall (λ c, is_Some (card_events Sample2.world_logged_out c))
         (WorkList.list_cards Sample2.backlog) ∧
  ∃ (stp : State) (ids : list string),
    set_pm_score Sample2.world_logged_out Sample2.lists (initial_state false) =
      (after stp
         ([InteractiveLogin] ++
          [GetBug "12345";
           Print (score_line (WorkUnit.mk Sample2.upgrade [] false (Some Sample.url_12345)
                                          "Upgrade") (PyInt 7));
           SetCustomField Sample2.upgrade "PM_SCORE" 7] ++
          [GetBug "12345";
           Print (score_line Sample.unit_fix_login (PyInt 7));
           SetCustomField Sample.fix_login "PM_SCORE" 7]), Ok tt).
Proof.
  assert (Hall : Forall (λ c, is_Some (card_events Sample2.world_logged_out c))
                        (WorkList.list_cards Sample2.backlog))
    by (repeat constructor; by eexists).
  split; [reflexivity|]. split; [exact Hall|].
  destruct (X10_sync_planned_cards_first Sample2.world_logged_out Sample2.lists
              Sample2.backlog (initial_state false) eq_refl Hall)
    as (stp & ids & _ & Hrun).
  exists stp, ids. exact Hrun.
Defined.

(** X11. When the reference of a unit has an [id] but [int] rejects the
    score of the issue, the issue has been queried and the update has been
    reported, yet nothing is written: the pass stops there with an error,
    the units that follow are not processed, and the effects of the
    earlier units stay. The error is that of [int], unless the lookup of
    the PM_SCORE field has failed before, with its own error. *)
Theorem X11_score_conversion_failure
        (W : World) (pre post : list WorkUnit.t) (card : WorkUnit.t)
        (url bug_id : string) (e : Exn) (st st1 : State) :
  WorkUnit.bugzilla card = Some url →
  query_id W url = Some bug_id →
  py_int W (cf_pm_score W bug_id) = Raise e →
  for_each pre (set_pm_score_body W) st = (st1, Ok tt) →
  for_each (pre ++ card :: post) (set_pm_score_body W) st =
    (after st1 [GetBug bug_id; Print (score_line card (cf_pm_score W bug_id))],
     Raise (match custom_field_by_name W (WorkUnit._object card) "PM_SCORE" with
            | Ok _ => e
            | Raise e' => e'
            end)).
Proof.
  intros Hbz Hq He Hpre. rewrite for_each_app, Hpre. simpl. unfold mbind, M_bind.
  change "PM_SCORE" with FIELD_PM_SCORE.
  destruct (custom_field_by_name W (WorkUnit._object card) FIELD_PM_SCORE)
    as [[]|e'] eqn:Hf.
  - by rewrite (body_score_error W card url bug_id e st1 Hbz Hq Hf He).
  - by rewrite (body_field_error W card url bug_id e' st1 Hbz Hq Hf).
Qed.

Lemma X11_score_conversion_failure_witness :
  WorkUnit.bugzilla Sample.unit_fix_login = Some Sample.url_12345 ∧
  query_id Sample2.world_no_score Sample.url_12345 = Some "12345" ∧
  py_int Sample2.world_no_score (cf_pm_score Sample2.world_no_score "12345")
    = Raise ValueError ∧
  for_each [Sample.unit_write_docs] (set_pm_score_body Sample2.world_no_score)
           (initial_state false) = (initial_state false, Ok tt) ∧
  for_each ([Sample.unit_write_docs] ++ Sample.unit_fix_login :: [Sample.unit_refactor])
           (set_pm_score_body Sample2.world_no_score) (initial_state false) =
    (after (initial_state false)
           [GetBug "12345"; Print (score_line Sample.unit_fix_login (PyStr "n/a"))],
     Raise ValueError).
Proof.
  split; [reflexivity|]. split; [reflexivity|]. split; [reflexivity|].
  split; [reflexivity|].
  apply (X11_score_conversion_failure Sample2.world_no_score [Sample.unit_write_docs]
           [Sample.unit_refactor] Sample.unit_fix_login Sample.url_12345 "12345"
           ValueError (initial_state false) (initial_state false)
           eq_refl eq_refl eq_refl eq_refl).
Defined.

(** X18. When the reference of a unit has an [id] but the board library
    finds no PM_SCORE field for the card, the issue has been queried and
    the update has been reported, yet nothing is written, whatever the
    score: the pass stops there with the error of the lookup, the units
    that follow are not processed, and the effects of the earlier units
    stay. *)
Theorem X18_unknown_field_failure
        (W : World) (pre post : list WorkUnit.t) (card : WorkUnit.t)
        (url bug_id : string) (e : Exn) (st st1 : State) :
  WorkUnit.bugzilla card = Some url →
  query_id W url = Some bug_id →
  custom_field_by_name W (WorkUnit._object card) "PM_SCORE" = Raise e →
  for_each pre (set_pm_score_body W) st = (st1, Ok tt) →
  for_each (pre ++ card :: post) (set_pm_score_body W) st =
    (after st1 [GetBug bug_id; Print (score_line card (cf_pm_score W bug_id))], Raise e) ∧
  tracker_calls (trace (after st1 [GetBug bug_id;
                                   Print (score_line card (cf_pm_score W bug_id))]))
    = tracker_calls (trace st1) ++ [GetBug bug_id].
Proof.
  intros Hbz Hq Hf Hpre. split.
  - rewrite for_each_app, Hpre. simpl. unfold mbind, M_bind.
    by rewrite (body_field_error W card url bug_id e st1 Hbz Hq Hf).
  - cbn [after trace]. by rewrite tracker_calls_app.
Qed.

Lemma X18_unknown_field_failure_witness :
  WorkUnit.bugzilla Sample.unit_fix_login = Some Sample.url_12345 ∧
  query_id Sample2.world_no_field Sample.url_12345 = Some "12345" ∧
  custom_field_by_name Sample2.world_no_field Sample.fix_login "PM_SCORE"
    = Raise ValueError ∧
  for_each [Sample.unit_write_docs] (set_pm_score_body Sample2.world_no_field)
           (initial_state false) = (initial_state false, Ok tt) ∧
  for_each ([Sample.unit_write_docs] ++ Sample.unit_fix_login :: [Sample.unit_fix_login])
           (set_pm_score_body Sample2.world_no_field) (initial_state false) =
    (after (initial_state false)
           [GetBug "12345"; Print (score_line Sample.unit_fix_login (PyInt 7))],
     Raise ValueError).
Proof.
  split; [reflexivity|]. split; [reflexivity|]. split; [reflexivity|].
  split; [reflexivity|].
  apply (X18_unknown_field_failure Sample2.world_no_field [Sample.unit_write_docs]
           [Sample.unit_fix_login] Sample.unit_fix_login Sample.url_12345 "12345"
           ValueError (initial_state false) (initial_state false)
           eq_refl eq_refl eq_refl eq_refl).
Defined.

(** X12. In [set_pm_score] the login comes at most once, after the
    snapshot of "Backlog" and before any query: when the list exists, what
    [set_pm_score] does is, in this order, the member lookups of the
    snapshot, the login if the session is not logged in, and then events
    of the pass, none of which is a login or a member lookup. *)
Theorem X12_login_before_queries
        (W : World) (lists : list WorkList.t) (backlog : WorkList.t) (st : State) :
  get_list W lists "Backlog" = Ok backlog →
  let st' := (set_pm_score W lists st).1 in
  ∃ (ids : list string) (evs : list Event),
    trace st' = trace st ++ (MemberFetch <$> ids) ++ login_events W ++ evs ∧
    Forall (λ e, e ≠ InteractiveLogin ∧ ¬ is_fetch e) evs.
Proof.
  intros Hget.
  destruct (set_pm_score_spec W lists backlog st Hget)
    as (stp & units & ids & Hunits & _ & Htr & Hrun).
  cbv zeta. rewrite Hrun.
  set (us := planned_units units ++ unplanned_units units).
  assert (Hpass : emits (is_sync_event us) (for_each us (set_pm_score_body W))).
  { apply emits_for_each. intros u Hu. by apply emits_set_pm_score_body. }
  destruct (emits_run _ _ (after stp (login_events W)) Hpass)
    as (_ & _ & _ & _ & evs & Htr' & Hevs).
  exists ids, evs. unfold login_events in *.
  split.
  - rewrite Htr'. cbn [after trace]. rewrite Htr, <- !app_assoc. reflexivity.
  - eapply Forall_impl; [exact Hevs|].
    intros [] He; simpl in *; try done; (split; [discriminate|intros []]).
Qed.

Lemma X12_login_before_queries_witness :
  get_list Sample2.world_logged_out Sample2.lists "Backlog" = Ok Sample2.backlog ∧
  ∃ (ids : list string) (evs : list Event),
    trace (set_pm_score Sample2.world_logged_out Sample2.lists (initial_state false)).1
      = [] ++ (MemberFetch <$> ids) ++ [InteractiveLogin] ++ evs ∧
    Forall (λ e, e ≠ InteractiveLogin ∧ ¬ is_fetch e) evs.
Proof.
  split; [reflexivity|].
  apply (X12_login_before_queries Sample2.world_logged_out Sample2.lists
           Sample2.backlog (initial_state false) eq_refl).
Defined.

(** ** Further properties: percentages *)

Section FloatSigns.
Local Open Scope Z_scope.

Lemma binary_round_finite_or_inf (s : bool) (p : positive) :
  (∃ m e, binary_round prec emax s p 0 = S754_finite s m e) ∨
  binary_round prec emax s p 0 = S754_infinity s.
Proof.
  unfold binary_round.
  replace (Z.pos (digits2_pos p)) with (Zdigits2 (Z.pos p)) by done.
  pose proof (Zdigits2_pos (Z.pos p) ltac:(lia)) as Hd.
  set (d := Zdigits2 (Z.pos p)) in *.
  rewrite fexp_normal by lia. unfold shl_align.
  replace (d + 0 - 53 - 0) with (d - 53) by lia.
  replace (d + 0 - 53) with (d - 53) by lia.
  destruct (d - 53) as [|k|k] eqn:Hk.
  - apply binary_round_aux_finite_or_inf; lia.
  - apply binary_round_aux_finite_or_inf; lia.
  - apply binary_round_aux_finite_or_inf; [lia| |lia].
    rewrite Zpos_iter_xO, Zdigits2_mul_pow2 by lia. fold d. lia.
Qed.

(** [float(n)] is zero only for [n = 0], and never a NaN. *)
Lemma py_float_finite (n : Z) (f : spec_float) :
  n ≠ 0 → py_float n = Ok f → ∃ s m e, f = S754_finite s m e.
Proof.
  intros Hn. unfold py_float. destruct n as [|p|p]; [done| |]; cbn [binary_normalize].
  - destruct (binary_round_finite_or_inf false p) as [(m & e & ->)| ->]; [|done].
    intros [= <-]. by eexists _, _, _.
  - destruct (binary_round_finite_or_inf true p) as [(m & e & ->)| ->]; [|done].
    intros [= <-]. by eexists _, _, _.
Qed.

Lemma py_float_raises (n : Z) (e : Exn) : py_float n = Raise e → e = OverflowError.
Proof.
  unfold py_float. destruct (binary_normalize prec emax n 0 false); try done.
  by intros [= <-].
Qed.
End FloatSigns.

(** X13. [percentage] lets no [ZeroDivisionError] escape: the only
    exception it can raise is the [OverflowError] of [float(part)] or
    [float(whole)]. It returns the int [100] only for a zero denominator,
    and for every other denominator the result is a float. *)
Theorem X13_percentage_outcomes (part whole : Z) :
  (∀ e, percentage part whole = Raise e →
        e = OverflowError ∧
        (py_float part = Raise OverflowError ∨ py_float whole = Raise OverflowError)) ∧
  (∀ v, percentage part whole = Ok v →
        (whole = 0%Z ∧ v = PyInt 100) ∨ (whole ≠ 0%Z ∧ ∃ f, v = PyFloat f)).
Proof.
  unfold percentage. split.
  - intros e H.
    destruct (py_float part) as [fp|e1] eqn:E1.
    + destruct (py_float whole) as [fw|e2] eqn:E2.
      * by destruct (py_float_div _ fw).
      * injection H as <-. pose proof (py_float_raises _ _ E2) as ->. auto.
    + injection H as <-. pose proof (py_float_raises _ _ E1) as ->. auto.
  - intros v H.
    destruct (py_float part) as [fp|e1] eqn:E1; [|done].
    destruct (py_float whole) as [fw|e2] eqn:E2; [|done].
    destruct (decide (whole = 0%Z)) as [->|Hne].
    + left. split; [done|]. injection E2 as <-. simpl in H. by injection H as <-.
    + right. split; [done|].
      destruct (py_float_finite whole fw Hne E2) as (s & m & e & ->).
      simpl in H. injection H as <-. by eexists.
Qed.

Lemma X13_percentage_outcomes_witness :
  percentage (10 ^ 400) 3 = Raise OverflowError ∧
  py_float (10 ^ 400) = Raise OverflowError ∧
  percentage 1 0 = Ok (PyInt 100) ∧
  ∃ f, percentage 1 3 = Ok (PyFloat f).
Proof.
  assert (H1 : percentage (10 ^ 400) 3 = Raise OverflowError) by (vm_compute; reflexivity).
  assert (H2 : percentage 1 3 = Ok (PyFloat (S754_finite false 4691249611844267 (-47))))
    by (vm_compute; reflexivity).
  split; [exact H1|].
  destruct (X13_percentage_outcomes (10 ^ 400) 3) as [Hraise _].
  destruct (Hraise _ H1) as [_ [Hp|Hw]].
  - split; [exact Hp|]. split; [reflexivity|]. eexists. exact H2.
  - exfalso. vm_compute in Hw. discriminate Hw.
Defined.

(** ** Further properties: the report *)

Lemma partition_length (l : WorkList.t) :
  (len (planned_cards l) + len (unplanned_cards l) = len (WorkList.list_cards l))%Z.
Proof.
  unfold len, planned_cards, unplanned_cards.
  rewrite <- (Permutation_length (partition_permutation (WorkList.list_cards l))).
  rewrite length_app. lia.
Qed.

Lemma percentage_full (n : Z) :
  (0 ≤ n)%Z → (100 * n < 2 ^ 53)%Z → percentage_eq n n 100.
Proof.
  intros Hn H100. destruct (decide (n = 0%Z)) as [->|Hne].
  - exists (PyInt 100). by split.
  - exists (PyFloat float_100). split; [apply percentage_same; lia|done].
Qed.

Lemma percentage_none (n : Z) :
  (0 ≤ n < 2 ^ 53)%Z → percentage_eq 0 n (if (n =? 0)%Z then 100 else 0).
Proof.
  intros Hn. destruct (Z.eqb_spec n 0) as [->|Hne].
  - exists (PyInt 100). by split.
  - destruct (py_float_small n ltac:(lia)) as [f Hf].
    exists (PyFloat (S754_zero false)). split; [|done].
    eapply percentage_part_zero; [lia|exact Hf].
Qed.

Section Layout.
Context (W : World).

(** The four snapshots of the report, built one after the other: the
    units of each list, and one final cache from which all member names
    are read. *)
Lemma report_snapshots (lists : list WorkList.t) (st : State)
      (sb doing ir done : WorkList.t) :
  get_list W lists "Sprint Backlog" = Ok sb →
  get_list W lists "Doing" = Ok doing →
  get_list W lists "In Review" = Ok ir →
  get_list W lists "Done" = Ok done →
  ∃ (st1 st2 st3 st4 : State) (u1 u2 u3 u4 : list WorkUnit.t) (ids : list string),
    parse_cards_from_list W lists "Sprint Backlog" st =
      (st1, Ok (Cards.mk (planned_units u1) (unplanned_units u1))) ∧
    parse_cards_from_list W lists "Doing" st1 =
      (st2, Ok (Cards.mk (planned_units u2) (unplanned_units u2))) ∧
    parse_cards_from_list W lists "In Review" st2 =
      (st3, Ok (Cards.mk (planned_units u3) (unplanned_units u3))) ∧
    parse_cards_from_list W lists "Done" st3 =
      (st4, Ok (Cards.mk (planned_units u4) (unplanned_units u4))) ∧
    Forall2 (unit_of W) (WorkList.list_cards sb) u1 ∧
    Forall2 (unit_of W) (WorkList.list_cards doing) u2 ∧
    Forall2 (unit_of W) (WorkList.list_cards ir) u3 ∧
    Forall2 (unit_of W) (WorkList.list_cards done) u4 ∧
    Forall (members_of (_INCLUDE_MEMBERS st) (MEMBERS_CACHE st4)) (u1 ++ u2 ++ u3 ++ u4) ∧
    _INCLUDE_MEMBERS st4 = _INCLUDE_MEMBERS st ∧
    trace st4 = trace st ++ (MemberFetch <$> ids).
Proof.
  intros Hsb Hdoing Hir Hdone.
  destruct (parse_cards_from_list_spec W lists _ sb st Hsb)
    as (st1 & u1 & ids1 & Hrun1 & Hu1 & Hm1 & Hinc1 & Hsub1 & Htr1 & _).
  destruct (parse_cards_from_list_spec W lists _ doing st1 Hdoing)
    as (st2 & u2 & ids2 & Hrun2 & Hu2 & Hm2 & Hinc2 & Hsub2 & Htr2 & _).
  destruct (parse_cards_from_list_spec W lists _ ir st2 Hir)
    as (st3 & u3 & ids3 & Hrun3 & Hu3 & Hm3 & Hinc3 & Hsub3 & Htr3 & _).
  destruct (parse_cards_from_list_spec W lists _ done st3 Hdone)
    as (st4 & u4 & ids4 & Hrun4 & Hu4 & Hm4 & Hinc4 & Hsub4 & Htr4 & _).
  exists st1, st2, st3, st4, u1, u2, u3, u4, (ids1 ++ ids2 ++ ids3 ++ ids4).
  rewrite Hinc1 in Hm2. rewrite Hinc2, Hinc1 in Hm3. rewrite Hinc3, Hinc2, Hinc1 in Hm4.
  split_and!; try done.
  - repeat (apply Forall_app; split); try done.
    + eapply Forall_impl; [exact Hm1|]. intros u.
      apply members_of_weaken. by do 2 (etrans; [|done]).
    + eapply Forall_impl; [exact Hm2|]. intros u.
      apply members_of_weaken. by etrans.
    + eapply Forall_impl; [exact Hm3|]. intros u. by apply members_of_weaken.
  - congruence.
  - rewrite Htr4, Htr3, Htr2, Htr1, !fmap_app, <- !app_assoc. reflexivity.
Qed.
End Layout.

(** X7. The layout of the report. When the four lists exist and both
    percentages are computed, [print_report] returns normally and prints,
    after the four summary lines: "Achievement Headline: " and the planned
    units of "Done"; "Unplanned Headline: " and the unplanned units of
    "Done"; "Unfinished cards: " and the units of "Sprint Backlog", "Doing"
    and "In Review", in this order of the lists and, within each list, the
    planned units before the unplanned ones. The units of a list are those
    of its cards, in card order, under the names of the cards; the marker
    "[unplanned]" is printed in the last listing only. All member names are
    read from one and the same cache, the one reached after the four
    snapshots, so that a member appears under one name throughout the
    report. *)
Theorem X7_report_layout
        (W : World) (lists : list WorkList.t) (st : State)
        (sb doing ir done : WorkList.t) (p q : PyVal) :
  get_list W lists "Sprint Backlog" = Ok sb →
  get_list W lists "Doing" = Ok doing →
  get_list W lists "In Review" = Ok ir →
  get_list W lists "Done" = Ok done →
  let units_planned_done := len (planned_cards done) in
  let units_unplanned_done := len (unplanned_cards done) in
  let units_planned :=
    (len (planned_cards sb) + len (planned_cards doing) +
     len (planned_cards ir) + units_planned_done)%Z in
  let units_unplanned :=
    (len (unplanned_cards sb) + len (unplanned_cards doing) +
     len (unplanned_cards ir) + units_unplanned_done)%Z in
  percentage units_planned_done units_planned = Ok p →
  percentage units_unplanned_done units_unplanned = Ok q →
  ∃ (stp : State) (u_sb u_doing u_ir u_done : list WorkUnit.t) (ids : list string),
    Forall2 (unit_of W) (WorkList.list_cards sb) u_sb ∧
    Forall2 (unit_of W) (WorkList.list_cards doing) u_doing ∧
    Forall2 (unit_of W) (WorkList.list_cards ir) u_ir ∧
    Forall2 (unit_of W) (WorkList.list_cards done) u_done ∧
    Forall (members_of (_INCLUDE_MEMBERS st) (MEMBERS_CACHE stp))
           (u_sb ++ u_doing ++ u_ir ++ u_done) ∧
    trace stp = trace st ++ (MemberFetch <$> ids) ∧
    print_report W lists st =
      (after stp (Print <$>
         (summary_lines units_planned units_unplanned
                        units_planned_done units_unplanned_done p q ++
          listing_lines (_INCLUDE_MEMBERS st)
            (planned_units u_done) (unplanned_units u_done)
            (planned_units u_sb ++ unplanned_units u_sb ++
             planned_units u_doing ++ unplanned_units u_doing ++
             planned_units u_ir ++ unplanned_units u_ir))), Ok tt).
Proof.
  intros Hsb Hdoing Hir Hdone upd uud up uu Hp Hq.
  destruct (report_snapshots W lists st sb doing ir done Hsb Hdoing Hir Hdone)
    as (st1 & st2 & st3 & st4 & u1 & u2 & u3 & u4 & ids &
        Hrun1 & Hrun2 & Hrun3 & Hrun4 & Hu1 & Hu2 & Hu3 & Hu4 & Hm & Hinc & Htr).
  exists st4, u1, u2, u3, u4, ids. split_and!; try done.
  unfold print_report, mbind, M_bind.
  rewrite Hrun1, Hrun2, Hrun3, Hrun4.
  cbn [Cards.planned Cards.unplanned].
  destruct (len_planned_units _ _ Hu1) as [-> ->].
  destruct (len_planned_units _ _ Hu2) as [-> ->].
  destruct (len_planned_units _ _ Hu3) as [-> ->].
  destruct (len_planned_units _ _ Hu4) as [-> ->].
  fold (planned_cards sb) (planned_cards doing) (planned_cards ir) (planned_cards done).
  fold (unplanned_cards sb) (unplanned_cards doing) (unplanned_cards ir)
       (unplanned_cards done).
  fold upd uud. fold up uu.
  unfold print, lift. rewrite Hp, Hq.
  repeat (first [rewrite emit_after | rewrite for_each_print_card]; cbv beta iota).
  rewrite !after_after. cbn [after _INCLUDE_MEMBERS]. rewrite Hinc.
  f_equal. f_equal.
  unfold summary_lines, listing_lines.
  rewrite !fmap_app, !concat_app, !fmap_app. csimpl. rewrite <- ?app_assoc. reflexivity.
Qed.

Lemma X7_report_layout_witness :
  get_list Sample.world Sample.lists "Sprint Backlog" = Ok Sample.sprint_backlog ∧
  get_list Sample.world Sample.lists "Doing" = Ok Sample.doing ∧
  get_list Sample.world Sample.lists "In Review" = Ok Sample.in_review ∧
  get_list Sample.world Sample.lists "Done" = Ok Sample.done ∧
  percentage 1 2 = Ok (PyFloat (S754_finite false 7036874417766400 (-47))) ∧
  ∃ (stp : State) (u_sb u_doing u_ir u_done : list WorkUnit.t),
    Forall2 (unit_of Sample.world) (WorkList.list_cards Sample.done) u_done ∧
    Forall (members_of true (MEMBERS_CACHE stp)) (u_sb ++ u_doing ++ u_ir ++ u_done) ∧
    printed (trace (print_report Sample.world Sample.lists (initial_state true)).1) =
      printed (trace stp) ++
      summary_lines 2 2 1 1 (PyFloat (S754_finite false 7036874417766400 (-47)))
                            (PyFloat (S754_finite false 7036874417766400 (-47))) ++
      listing_lines true (planned_units u_done) (unplanned_units u_done)
        (planned_units u_sb ++ unplanned_units u_sb ++
         planned_units u_doing ++ unplanned_units u_doing ++
         planned_units u_ir ++ unplanned_units u_ir).
Proof.
  split; [reflexivity|]. split; [reflexivity|]. split; [reflexivity|].
  split; [reflexivity|]. split; [reflexivity|].
  destruct (X7_report_layout Sample.world Sample.lists (initial_state true)
              Sample.sprint_backlog Sample.doing Sample.in_review Sample.done
              (PyFloat (S754_finite false 7036874417766400 (-47)))
              (PyFloat (S754_finite false 7036874417766400 (-47)))
              eq_refl eq_refl eq_refl eq_refl eq_refl eq_refl)
    as (stp & u1 & u2 & u3 & u4 & ids & _ & _ & _ & Hu4 & Hm & _ & Hrun).
  exists stp, u1, u2, u3, u4. split; [exact Hu4|]. split; [exact Hm|].
  rewrite Hrun. cbn [fst after trace]. rewrite printed_app, printed_Print. reflexivity.
Defined.

Lemma report_printed (W : World) (lists : list WorkList.t) (st : State)
      (sb doing ir done : WorkList.t) (p q : PyVal) :
  get_list W lists "Sprint Backlog" = Ok sb →
  get_list W lists "Doing" = Ok doing →
  get_list W lists "In Review" = Ok ir →
  get_list W lists "Done" = Ok done →
  let units_planned_done := len (planned_cards done) in
  let units_unplanned_done := len (unplanned_cards done) in
  let units_planned :=
    (len (planned_cards sb) + len (planned_cards doing) +
     len (planned_cards ir) + units_planned_done)%Z in
  let units_unplanned :=
    (len (unplanned_cards sb) + len (unplanned_cards doing) +
     len (unplanned_cards ir) + units_unplanned_done)%Z in
  percentage units_planned_done units_planned = Ok p →
  percentage units_unplanned_done units_unplanned = Ok q →
  ∃ (st' : State) (rest : list (list Printed)),
    print_report W lists st = (st', Ok tt) ∧
    printed (trace st') =
      printed (trace st) ++
      summary_lines units_planned units_unplanned
                    units_planned_done units_unplanned_done p q ++ rest.
Proof.
  intros Hsb Hdoing Hir Hdone upd uud up uu Hp Hq.
  destruct (print_report_spec W lists st sb doing ir done p q Hsb Hdoing Hir Hdone Hp Hq)
    as (stp & u1 & u2 & u3 & u4 & ids & _ & _ & _ & _ & _ & Htr & _ & Hrun).
  eexists _, _. split; [exact Hrun|].
  cbn [after trace]. rewrite Htr, !printed_app, printed_MemberFetch, printed_Print.
  rewrite app_nil_r. reflexivity.
Qed.

(** X3. The two totals of the report count every card of the four lists
    exactly once: when the four lists exist (with fewer than [2^53] cards
    in all), the numbers printed as "Units of work planned:" and "Units of
    work unplanned:" add up to the number of cards of "Sprint Backlog",
    "Doing", "In Review" and "Done" together. *)
Theorem X3_report_totals_cover_every_card
        (W : World) (lists : list WorkList.t) (st : State)
        (sb doing ir done : WorkList.t) :
  get_list W lists "Sprint Backlog" = Ok sb →
  get_list W lists "Doing" = Ok doing →
  get_list W lists "In Review" = Ok ir →
  get_list W lists "Done" = Ok done →
  let total :=
    (len (WorkList.list_cards sb) + len (WorkList.list_cards doing) +
     len (WorkList.list_cards ir) + len (WorkList.list_cards done))%Z in
  (total < 2 ^ 53)%Z →
  ∃ (st' : State) (units_planned units_unplanned : Z) (rest : list (list Printed)),
    print_report W lists st = (st', Ok tt) ∧
    printed (trace st') =
      printed (trace st) ++
      [ [Arg (PyStr "Units of work planned:"); Arg (PyInt units_planned)];
        [Arg (PyStr "Units of work unplanned:"); Arg (PyInt units_unplanned)] ] ++ rest ∧
    (units_planned + units_unplanned = total)%Z.
Proof.
  intros Hsb Hdoing Hir Hdone total Htotal.
  pose proof (partition_length sb). pose proof (partition_length doing).
  pose proof (partition_length ir). pose proof (partition_length done).
  pose proof (len_nonneg (planned_cards sb)). pose proof (len_nonneg (planned_cards doing)).
  pose proof (len_nonneg (planned_cards ir)). pose proof (len_nonneg (planned_cards done)).
  pose proof (len_nonneg (unplanned_cards sb)). pose proof (len_nonneg (unplanned_cards doing)).
  pose proof (len_nonneg (unplanned_cards ir)). pose proof (len_nonneg (unplanned_cards done)).
  unfold total in Htotal.
  edestruct (percentage_defined (len (planned_cards done))) as [p Hp]; [lia| |].
  2: edestruct (percentage_defined (len (unplanned_cards done))) as [q Hq]; [lia| |].
  3: destruct (report_printed W lists st sb doing ir done p q Hsb Hdoing Hir Hdone Hp Hq)
       as (st' & rest & Hrun & Hpr).
  3: { eexists st', _, _, _. split; [exact Hrun|]. split; [exact Hpr|]. unfold total. lia. }
  all: lia.
Qed.

Lemma X3_report_totals_cover_every_card_witness :
  get_list Sample.world Sample.lists "Sprint Backlog" = Ok Sample.sprint_backlog ∧
  get_list Sample.world Sample.lists "Doing" = Ok Sample.doing ∧
  get_list Sample.world Sample.lists "In Review" = Ok Sample.in_review ∧
  get_list Sample.world Sample.lists "Done" = Ok Sample.done ∧
  ∃ (st' : State) (units_planned units_unplanned : Z) (rest : list (list Printed)),
    print_report Sample.world Sample.lists (initial_state false) = (st', Ok tt) ∧
    printed (trace st') =
      [ [Arg (PyStr "Units of work planned:"); Arg (PyInt units_planned)];
        [Arg (PyStr "Units of work unplanned:"); Arg (PyInt units_unplanned)] ] ++ rest ∧
    (units_planned + units_unplanned = 4)%Z.
Proof.
  split; [reflexivity|]. split; [reflexivity|]. split; [reflexivity|].
  split; [reflexivity|].
  apply (X3_report_totals_cover_every_card Sample.world Sample.lists (initial_state false)
           Sample.sprint_backlog Sample.doing Sample.in_review Sample.done
           eq_refl eq_refl eq_refl eq_refl); reflexivity.
Defined.

(** X14. A sprint whose work is all in "Done" is fully achieved: when
    "Sprint Backlog", "Doing" and "In Review" hold no card (and "Done"
    fewer than [2^53 / 100] cards), the report gives, for planned and for
    unplanned work alike, the total equal to the number done and a
    percentage that equals 100, also when there is no such work at all. *)
Theorem X14_all_done_is_100_percent
        (W : World) (lists : list WorkList.t) (st : State)
        (sb doing ir done : WorkList.t) :
  get_list W lists "Sprint Backlog" = Ok sb →
  get_list W lists "Doing" = Ok doing →
  get_list W lists "In Review" = Ok ir →
  get_list W lists "Done" = Ok done →
  WorkList.list_cards sb = [] →
  WorkList.list_cards doing = [] →
  WorkList.list_cards ir = [] →
  (100 * len (WorkList.list_cards done) < 2 ^ 53)%Z →
  ∃ (st' : State) (p q : PyVal) (rest : list (list Printed)),
    print_report W lists st = (st', Ok tt) ∧
    printed (trace st') =
      printed (trace st) ++
      summary_lines (len (planned_cards done)) (len (unplanned_cards done))
                    (len (planned_cards done)) (len (unplanned_cards done)) p q ++ rest ∧
    py_eq_int p 100 = true ∧ py_eq_int q 100 = true.
Proof.
  intros Hsb Hdoing Hir Hdone Esb Edoing Eir Hbound.
  pose proof (partition_length done).
  pose proof (len_nonneg (planned_cards done)).
  pose proof (len_nonneg (unplanned_cards done)).
  destruct (percentage_full (len (planned_cards done))) as (p & Hp & Hp100); [lia..|].
  destruct (percentage_full (len (unplanned_cards done))) as (q & Hq & Hq100); [lia..|].
  pose proof (report_printed W lists st sb doing ir done p q Hsb Hdoing Hir Hdone) as Hrep.
  cbv zeta in Hrep.
  assert (E1 : ∀ l, WorkList.list_cards l = [] →
                    len (planned_cards l) = 0%Z ∧ len (unplanned_cards l) = 0%Z).
  { intros l El. unfold planned_cards, unplanned_cards. by rewrite El. }
  destruct (E1 sb Esb) as [Ea Eb]. destruct (E1 doing Edoing) as [Ec Ed].
  destruct (E1 ir Eir) as [Ee Ef].
  rewrite Ea, Eb, Ec, Ed, Ee, Ef, !Z.add_0_l in Hrep.
  destruct (Hrep Hp Hq) as (st' & rest & Hrun & Hpr).
  by exists st', p, q, rest.
Qed.

Lemma X14_all_done_is_100_percent_witness :
  ∃ (st' : State) (p q : PyVal) (rest : list (list Printed)),
    print_report Sample.world
      [WorkList.mk "Sprint Backlog" []; WorkList.mk "Doing" []; Sample.in_review; Sample.done]
      (initial_state false) = (st', Ok tt) ∧
    printed (trace st') = summary_lines 1 1 1 1 p q ++ rest ∧
    py_eq_int p 100 = true ∧ py_eq_int q 100 = true.
Proof.
  apply (X14_all_done_is_100_percent Sample.world
           [WorkList.mk "Sprint Backlog" []; WorkList.mk "Doing" [];
            Sample.in_review; Sample.done]
           (initial_state false)
           (WorkList.mk "Sprint Backlog" []) (WorkList.mk "Doing" [])
           Sample.in_review Sample.done
           eq_refl eq_refl eq_refl eq_refl eq_refl eq_refl eq_refl); reflexivity.
Defined.

(** X15. A sprint with nothing in "Done": when "Done" holds no card (and
    the other three lists fewer than [2^53] cards in all), the report gives
    0 units achieved, with a percentage that equals 0 where there is such
    work, planned or unplanned, and 100 where there is none. *)
Theorem X15_nothing_done
        (W : World) (lists : list WorkList.t) (st : State)
        (sb doing ir done : WorkList.t) :
  get_list W lists "Sprint Backlog" = Ok sb →
  get_list W lists "Doing" = Ok doing →
  get_list W lists "In Review" = Ok ir →
  get_list W lists "Done" = Ok done →
  WorkList.list_cards done = [] →
  let units_planned :=
    (len (planned_cards sb) + len (planned_cards doing) + len (planned_cards ir))%Z in
  let units_unplanned :=
    (len (unplanned_cards sb) + len (unplanned_cards doing) + len (unplanned_cards ir))%Z in
  (units_planned < 2 ^ 53)%Z →
  (units_unplanned < 2 ^ 53)%Z →
  ∃ (st' : State) (p q : PyVal) (rest : list (list Printed)),
    print_report W lists st = (st', Ok tt) ∧
    printed (trace st') =
      printed (trace st) ++ summary_lines units_planned units_unplanned 0 0 p q ++ rest ∧
    py_eq_int p (if (units_planned =? 0)%Z then 100 else 0) = true ∧
    py_eq_int q (if (units_unplanned =? 0)%Z then 100 else 0) = true.
Proof.
  intros Hsb Hdoing Hir Hdone Edone up uu Hup Huu.
  pose proof (len_nonneg (planned_cards sb)). pose proof (len_nonneg (planned_cards doing)).
  pose proof (len_nonneg (planned_cards ir)).
  pose proof (len_nonneg (unplanned_cards sb)). pose proof (len_nonneg (unplanned_cards doing)).
  pose proof (len_nonneg (unplanned_cards ir)).
  destruct (percentage_none up) as (p & Hp & Hp0); [unfold up in *; lia|].
  destruct (percentage_none uu) as (q & Hq & Hq0); [unfold uu in *; lia|].
  pose proof (report_printed W lists st sb doing ir done p q Hsb Hdoing Hir Hdone) as Hrep.
  cbv zeta in Hrep.
  assert (E1 : len (planned_cards done) = 0%Z)
    by (unfold planned_cards; by rewrite Edone).
  assert (E2 : len (unplanned_cards done) = 0%Z)
    by (unfold unplanned_cards; by rewrite Edone).
  rewrite E1, E2, !Z.add_0_r in Hrep. fold up uu in Hrep.
  destruct (Hrep Hp Hq) as (st' & rest & Hrun & Hpr).
  by exists st', p, q, rest.
Qed.

Lemma X15_nothing_done_witness :
  ∃ (st' : State) (p q : PyVal) (rest : list (list Printed)),
    print_report Sample.world
      [Sample.sprint_backlog; Sample.doing; Sample.in_review; WorkList.mk "Done" []]
      (initial_state false) = (st', Ok tt) ∧
    printed (trace st') = summary_lines 1 1 0 0 p q ++ rest ∧
    py_eq_int p 0 = true ∧ py_eq_int q 0 = true.
Proof.
  apply (X15_nothing_done Sample.world
           [Sample.sprint_backlog; Sample.doing; Sample.in_review; WorkList.mk "Done" []]
           (initial_state false)
           Sample.sprint_backlog Sample.doing Sample.in_review (WorkList.mk "Done" [])
           eq_refl eq_refl eq_refl eq_refl eq_refl); reflexivity.
Defined.

(** ** Further properties: the range of [float] *)

Section FloatRange.
Local Open Scope Z_scope.

Lemma shr_1_m (mrs : shr_record) : 0 ≤ shr_m mrs → shr_m (shr_1 mrs) = shr_m mrs / 2.
Proof.
  destruct mrs as [[|[p|p|]|p] r s]; cbn [shr_1 shr_m]; intros H;
    first [ reflexivity | lia
          | apply Z.div_unique with 1; lia
          | apply Z.div_unique with 0; lia ].
Qed.

Lemma shr_1_r (mrs : shr_record) : 0 ≤ shr_m mrs → shr_r (shr_1 mrs) = Z.odd (shr_m mrs).
Proof.
  destruct mrs as [[|[p|p|]|p] r s]; cbn [shr_1 shr_m shr_r]; intros H; try reflexivity; lia.
Qed.

Lemma iter_shr_1_m (k : positive) :
  ∀ mrs, 0 ≤ shr_m mrs →
         shr_m (SpecFloat.iter_pos shr_1 k mrs) = shr_m mrs / 2 ^ Z.pos k.
Proof.
  induction k as [k IH|k IH|]; intros mrs Hm; cbn [SpecFloat.iter_pos].
  - assert (0 ≤ shr_m (shr_1 mrs)) by (rewrite shr_1_m by done; apply Z.div_pos; lia).
    assert (0 ≤ shr_m (SpecFloat.iter_pos shr_1 k (shr_1 mrs))).
    { rewrite IH by done. apply Z.div_pos; [done|]. by apply pow2_pos. }
    rewrite IH, IH, shr_1_m by done.
    pose proof (pow2_pos (Z.pos k) ltac:(lia)).
    rewrite !Z.div_div by lia. f_equal. rewrite pow2_xI. lia.
  - assert (0 ≤ shr_m (SpecFloat.iter_pos shr_1 k mrs)).
    { rewrite IH by done. apply Z.div_pos; [done|]. by apply pow2_pos. }
    rewrite IH, IH by done.
    pose proof (pow2_pos (Z.pos k) ltac:(lia)).
    rewrite !Z.div_div by lia. f_equal. by rewrite pow2_xO.
  - rewrite shr_1_m by done. done.
Qed.

Lemma iter_shr_1_r (k : positive) :
  ∀ mrs, 0 ≤ shr_m mrs →
         shr_r (SpecFloat.iter_pos shr_1 k mrs) = Z.odd (shr_m mrs / 2 ^ (Z.pos k - 1)).
Proof.
  induction k as [k IH|k IH|]; intros mrs Hm; cbn [SpecFloat.iter_pos].
  - assert (0 ≤ shr_m (shr_1 mrs)) by (rewrite shr_1_m by done; apply Z.div_pos; lia).
    assert (0 ≤ shr_m (SpecFloat.iter_pos shr_1 k (shr_1 mrs))).
    { rewrite iter_shr_1_m by done. apply Z.div_pos; [done|]. by apply pow2_pos. }
    rewrite IH, iter_shr_1_m, shr_1_m by done.
    pose proof (pow2_pos (Z.pos k) ltac:(lia)).
    pose proof (pow2_pos (Z.pos k - 1) ltac:(lia)).
    rewrite !Z.div_div by lia. do 2 f_equal.
    replace (Z.pos k~1 - 1) with (1 + Z.pos k + (Z.pos k - 1)) by lia.
    rewrite !Z.pow_add_r by lia. lia.
  - assert (0 ≤ shr_m (SpecFloat.iter_pos shr_1 k mrs)).
    { rewrite iter_shr_1_m by done. apply Z.div_pos; [done|]. by apply pow2_pos. }
    rewrite IH, iter_shr_1_m by done.
    pose proof (pow2_pos (Z.pos k) ltac:(lia)).
    pose proof (pow2_pos (Z.pos k - 1) ltac:(lia)).
    rewrite !Z.div_div by lia. do 2 f_equal.
    replace (Z.pos k~0 - 1) with (Z.pos k + (Z.pos k - 1)) by lia.
    by rewrite !Z.pow_add_r by lia.
  - rewrite shr_1_r by done. by rewrite Z.div_1_r.
Qed.

Lemma round_nearest_even_cases (mrs : shr_record) :
  let m := shr_m mrs in
  let m2 := round_nearest_even m (loc_of_shr_record mrs) in
  m ≤ m2 ≤ m + 1 ∧
  (shr_r mrs = false → m2 = m) ∧
  (shr_r mrs = true → Z.odd m = true → m2 = m + 1).
Proof.
  destruct mrs as [m [] []]; cbn [shr_m shr_r loc_of_shr_record round_nearest_even];
    split_and!; try done; try lia;
    try (destruct (Z.even m); lia);
    try (intros _ Hodd; rewrite <- Z.negb_odd, Hodd; done).
Qed.

(** The second cut of [binary_round_aux], on a mantissa of 53 bits or on
    [2^53]. *)
Lemma second_cut (s : bool) (m2 k : Z) :
  2 ^ 52 ≤ m2 ≤ 2 ^ 53 → 0 ≤ k →
  let '(mrs, e) := shr_fexp prec emax m2 k loc_Exact in
  match shr_m mrs with
  | Z0 => S754_zero s
  | Z.pos m => if e <=? emax - prec then S754_finite s m e else S754_infinity s
  | Z.neg _ => S754_nan
  end = S754_infinity s ↔ (m2 < 2 ^ 53 ∧ 971 < k) ∨ (m2 = 2 ^ 53 ∧ 970 < k).
Proof.
  intros Hm Hk. unfold shr_fexp.
  destruct (decide (m2 = 2 ^ 53)) as [->|Hne].
  - replace (Zdigits2 (2 ^ 53)) with 54 by done.
    rewrite fexp_normal by lia. replace (54 + k - 53 - k) with 1 by lia.
    cbn [shr_record_of_loc shr SpecFloat.iter_pos].
    change (shr_m (shr_1 {| shr_m := 2 ^ 53; shr_r := false; shr_s := false |}))
      with (Z.pos (Z.to_pos (2 ^ 52))).
    cbv beta iota. unfold emax, prec.
    destruct (Z.leb_spec (k + 1) (1024 - 53)); split; try done; try lia;
      try (intros _; right; lia).
  - assert (Hd : Zdigits2 m2 = 53) by (apply Zdigits2_unique; lia).
    rewrite Hd, fexp_normal by lia. replace (53 + k - 53 - k) with 0 by lia.
    cbn [shr_record_of_loc shr shr_m].
    destruct m2 as [|p2|p2]; try lia. unfold emax, prec.
    destruct (Z.leb_spec k (1024 - 53)); split; try done; try lia;
      try (intros _; left; lia).
Qed.

Lemma overflow_arith (p m2 d : Z) :
  54 ≤ d → 2 ^ (d - 1) ≤ p < 2 ^ d →
  let m1 := p / 2 ^ (d - 53) in
  m1 ≤ m2 ≤ m1 + 1 →
  (Z.odd (p / 2 ^ (d - 53 - 1)) = false → m2 = m1) →
  (Z.odd (p / 2 ^ (d - 53 - 1)) = true → Z.odd m1 = true → m2 = m1 + 1) →
  ((m2 < 2 ^ 53 ∧ 971 < d - 53) ∨ (m2 = 2 ^ 53 ∧ 970 < d - 53)) ↔ float_limit ≤ p.
Proof.
  intros Hd [Hlo Hhi] m1 Hb Hf Ht.
  assert (Hm1 : 2 ^ 52 ≤ m1 < 2 ^ 53).
  { unfold m1. pose proof (pow2_pos (d - 53) ltac:(lia)). split.
    - apply Z.div_le_lower_bound; [lia|]. rewrite <- Z.pow_add_r by lia.
      by replace (d - 53 + 52) with (d - 1) by lia.
    - apply Z.div_lt_upper_bound; [lia|]. rewrite <- Z.pow_add_r by lia.
      by replace (d - 53 + 53) with d by lia. }
  destruct (Z.lt_total d 1024) as [Hlt|[->|Hgt]].
  - assert (2 ^ d ≤ 2 ^ 1023) by (apply Z.pow_le_mono_r; lia).
    assert (2 ^ 1023 < float_limit) by done.
    split; [lia|]. intros. lia.
  - change (1024 - 53) with 971 in *. change (971 - 1) with 970 in *.
    assert (Hq : m1 = p / 2 ^ 970 / 2).
    { unfold m1. rewrite Z.div_div by lia. done. }
    clearbody m1.
    set (q := p / 2 ^ 970) in *.
    assert (Hqlo : 2 ^ 970 * q ≤ p) by (apply Z.mul_div_le; lia).
    assert (Hqhi : p < 2 ^ 970 * (q + 1)).
    { replace (q + 1) with (Z.succ q) by lia. apply Z.mul_succ_div_gt. lia. }
    assert (Hq2 : q = 2 * m1 + Z.b2z (Z.odd q)).
    { rewrite Hq, <- Z.bit0_odd, Z.bit0_mod. apply Z.div_mod. lia. }
    assert (HT : float_limit = 2 ^ 970 * (2 ^ 54 - 1)) by done.
    assert (H1024 : 2 ^ 1024 = 2 ^ 970 * 2 ^ 54) by done.
    assert (HX : 0 < 2 ^ 970) by done.
    rewrite HT. rewrite H1024 in Hhi.
    generalize dependent (2 ^ 970). intros X. intros.
    split.
    + intros [[_ ?]|[Hm2 _]]; [lia|].
      destruct (Z.odd q) eqn:Hodd.
      * simpl in Hq2. assert (2 ^ 54 - 1 ≤ q) by lia. nia.
      * specialize (Hf eq_refl). lia.
    + intros HTp. right. split; [|lia].
      assert (2 ^ 54 - 1 ≤ q) by nia.
      assert (q < 2 ^ 54) by nia.
      assert (Hqv : q = 2 ^ 54 - 1) by lia.
      destruct (Z.odd q) eqn:Hodd; simpl in Hq2.
      * assert (Hm1v : m1 = 2 ^ 53 - 1) by lia.
        rewrite Ht; [lia|done|]. by rewrite Hm1v.
      * lia.
  - assert (2 ^ 1024 ≤ 2 ^ (d - 1)) by (apply Z.pow_le_mono_r; lia).
    assert (float_limit < 2 ^ 1024) by done.
    split; [lia|]. intros _.
    destruct (decide (m2 = 2 ^ 53)); [right|left]; lia.
Qed.

Lemma binary_round_overflow_iff (s : bool) (p : positive) :
  binary_round prec emax s p 0 = S754_infinity s ↔ float_limit ≤ Z.pos p.
Proof.
  pose proof (Zdigits2_bounds (Z.pos p) ltac:(lia)) as Hb.
  pose proof (Zdigits2_pos (Z.pos p) ltac:(lia)) as Hd.
  destruct (Z.le_gt_cases (Zdigits2 (Z.pos p)) 53) as [Hsmall|Hlarge].
  - assert (Z.pos p < 2 ^ 53).
    { assert (2 ^ Zdigits2 (Z.pos p) ≤ 2 ^ 53) by (apply Z.pow_le_mono_r; lia). lia. }
    rewrite binary_round_exact by done.
    assert (2 ^ 53 < float_limit) by done.
    split; [done|lia].
  - unfold binary_round.
    replace (Z.pos (digits2_pos p)) with (Zdigits2 (Z.pos p)) by done.
    set (d := Zdigits2 (Z.pos p)) in *.
    rewrite fexp_normal by lia. unfold shl_align.
    replace (d + 0 - 53 - 0) with (d - 53) by lia.
    destruct (d - 53) as [|kk|kk] eqn:Hk; try lia.
    unfold binary_round_aux. unfold shr_fexp at 1.
    change (Zdigits2 (Z.pos p)) with d.
    rewrite fexp_normal by lia.
    replace (d + 0 - 53 - 0) with (Z.pos kk) by lia.
    cbn [shr_record_of_loc shr].
    set (mrs1 := SpecFloat.iter_pos shr_1 kk _).
    assert (Hm : shr_m mrs1 = Z.pos p / 2 ^ Z.pos kk)
      by (unfold mrs1; by rewrite iter_shr_1_m).
    assert (Hr : shr_r mrs1 = Z.odd (Z.pos p / 2 ^ (Z.pos kk - 1)))
      by (unfold mrs1; by rewrite iter_shr_1_r).
    destruct (round_nearest_even_cases mrs1) as (Hbd & Hf & Ht).
    set (m2 := round_nearest_even (shr_m mrs1) (loc_of_shr_record mrs1)) in *.
    rewrite Hm in Hbd, Hf, Ht. rewrite Hr in Hf, Ht. rewrite <- Hk in Hbd, Hf, Ht.
    pose proof (overflow_arith (Z.pos p) m2 d ltac:(lia) Hb Hbd Hf Ht) as Harith.
    assert (Hm1 : 2 ^ 52 ≤ Z.pos p / 2 ^ (d - 53)).
    { pose proof (pow2_pos (d - 53) ltac:(lia)).
      apply Z.div_le_lower_bound; [lia|]. rewrite <- Z.pow_add_r by lia.
      replace (d - 53 + 52) with (d - 1) by lia. lia. }
    assert (Hm1' : Z.pos p / 2 ^ (d - 53) < 2 ^ 53).
    { pose proof (pow2_pos (d - 53) ltac:(lia)).
      apply Z.div_lt_upper_bound; [lia|]. rewrite <- Z.pow_add_r by lia.
      replace (d - 53 + 53) with d by lia. lia. }
    pose proof (second_cut s m2 (0 + Z.pos kk) ltac:(lia) ltac:(lia)) as Hcut.
    destruct (shr_fexp prec emax m2 (0 + Z.pos kk) loc_Exact) as [mrs e].
    rewrite Hcut, <- Harith. rewrite Hk. replace (0 + Z.pos kk) with (Z.pos kk) by lia.
    reflexivity.
Qed.

(** [float(n)] overflows exactly from [2^1024 - 2^970] on. *)
Lemma py_float_overflow_iff (n : Z) :
  py_float n = Raise OverflowError ↔ float_limit ≤ Z.abs n.
Proof.
  unfold py_float. destruct n as [|p|p]; cbn [binary_normalize Z.abs].
  - split; [done|]. by intros H.
  - rewrite <- (binary_round_overflow_iff false p).
    destruct (binary_round_finite_or_inf false p) as [(m & e & ->)| ->]; by split.
  - rewrite <- (binary_round_overflow_iff true p).
    destruct (binary_round_finite_or_inf true p) as [(m & e & ->)| ->]; by split.
Qed.
End FloatRange.

Lemma percentage_raises (part whole : Z) (e : Exn) :
  percentage part whole = Raise e → e = OverflowError.
Proof.
  unfold percentage. intros H.
  destruct (py_float part) as [fp|e1] eqn:E1.
  - destruct (py_float whole) as [fw|e2] eqn:E2.
    + by destruct (py_float_div _ fw).
    + injection H as <-. by apply py_float_raises in E2.
  - injection H as <-. by apply py_float_raises in E1.
Qed.

(** X17. [percentage] raises [OverflowError] exactly when the magnitude of
    [part] or of [whole] reaches [2^1024 - 2^970], the first integer that
    [float] cannot convert; below that limit it always returns a value. *)
Theorem X17_percentage_overflow_threshold (part whole : Z) :
  (percentage part whole = Raise OverflowError ↔
   (float_limit ≤ Z.abs part)%Z ∨ (float_limit ≤ Z.abs whole)%Z) ∧
  ((∃ v, percentage part whole = Ok v) ↔
   (Z.abs part < float_limit)%Z ∧ (Z.abs whole < float_limit)%Z).
Proof.
  assert (Hraise : percentage part whole = Raise OverflowError ↔
                   (float_limit ≤ Z.abs part)%Z ∨ (float_limit ≤ Z.abs whole)%Z).
  { rewrite <- !py_float_overflow_iff. split; [|apply percentage_overflow].
    intros H. unfold percentage in H.
    destruct (py_float part) as [fp|e1] eqn:E1.
    - destruct (py_float whole) as [fw|e2] eqn:E2.
      + by destruct (py_float_div _ fw).
      + right. by rewrite (py_float_raises _ _ E2).
    - left. by rewrite (py_float_raises _ _ E1). }
  split; [exact Hraise|].
  split.
  - intros [v Hv].
    destruct (Z.lt_ge_cases (Z.abs part) float_limit) as [Hp|Hp];
      [destruct (Z.lt_ge_cases (Z.abs whole) float_limit) as [Hw|Hw]; [done|]|].
    + rewrite (proj2 Hraise (or_intror Hw)) in Hv. discriminate.
    + rewrite (proj2 Hraise (or_introl Hp)) in Hv. discriminate.
  - intros [Hp Hw].
    destruct (percentage part whole) as [v|e] eqn:E; [by exists v|].
    pose proof (percentage_raises _ _ _ E) as ->.
    destruct (proj1 Hraise eq_refl); lia.
Qed.
